(** * BKK real-time departure monitor

    A shallow embedding of [bkk_departures.py]: the stop resolver
    ([find_stops_by_name]), the arrival extractor ([get_incoming_trams]),
    the board ([display_real_time_board]) and the session with its poll
    loop ([main]), followed by the properties of the specification that
    are settled on them.

    Conventions.
    - A Python [str] is a [string] holding its UTF-8 bytes; substring
      containment and the code-point order of [<] are the same on the
      bytes as on the code points.
    - A naive [datetime] is the number of microseconds on the wall clock
      since 1970-01-01 00:00:00; a [timedelta] is a number of microseconds.
    - An exception is a value of [exn]; code that can raise returns a
      [result]. *)

From Stdlib Require Import ZArith Lia Sorted Permutation.
From Stdlib Require Import Ascii.
From Stdlib Require String Strings.Byte.
From stdpp Require Import base gmap strings list pretty.

Local Open Scope Z_scope.

(** ** Exceptions *)

Inductive exn :=
  | DecodeError                 (* google.protobuf.message.DecodeError *)
  | ValueError                  (* datetime.fromtimestamp: year out of range *)
  | OverflowError               (* datetime.fromtimestamp: out of range for time_t *)
  | OSError                     (* datetime.fromtimestamp: localtime failed *)
  | EOFError                    (* input() at end of file *)
  | OtherError (name : string). (* raised by a collaborator: requests, pandas *)

Inductive result (A : Type) :=
  | Ok (a : A)
  | Raise (e : exn).
Arguments Ok {A} a.
Arguments Raise {A} e.

#[global] Instance result_ret : MRet result := @Ok.
#[global] Instance result_bind : MBind result := λ A B f m,
  match m with Ok a => f a | Raise e => Raise e end.

Definition is_Ok {A} (r : result A) : Prop := ∃ a, r = Ok a.

(** A [for] loop over [l] whose body updates the local state [s] and may
    raise: the first exception leaves the loop. *)
Fixpoint for_each {S A} (body : S → A → result S) (s : S) (l : list A)
  : result S :=
  match l with
  | [] => Ok s
  | x :: l' => s' ← body s x; for_each body s' l'
  end.

(** ** Strings *)

Definition nl : string := String "010"%char "".
Definition esc : string := String "027"%char "".

(** [s.startswith(p)] *)
Fixpoint startswith (s p : string) : bool :=
  match p, s with
  | "", _ => true
  | String c p', String d s' => if Ascii.eqb c d then startswith s' p' else false
  | String _ _, "" => false
  end.

(** [sub in s] on two strings: [sub] occurs in [s] at some position. *)
Fixpoint str_in (sub s : string) : bool :=
  startswith s sub ||
  match s with
  | "" => false
  | String _ s' => str_in sub s'
  end.

(** [s.split(".")[0]]: what precedes the first full stop. *)
Fixpoint before_dot (s : string) : string :=
  match s with
  | "" => ""
  | String c s' => if Ascii.eqb c "."%char then "" else String c (before_dot s')
  end.

(** [sep.join(l)] *)
Fixpoint join (sep : string) (l : list string) : string :=
  match l with
  | [] => ""
  | [s] => s
  | s :: l' => s +:+ sep +:+ join sep l'
  end.

Fixpoint zeros (n : nat) : string :=
  match n with O => "" | S n' => String "0"%char (zeros n') end.

(** ["%d" % n] is [pretty n]; ["%0wd" % n] pads it on the left to width
    [w] with zeros (only used on [n >= 0]). *)
Definition fmt_d (w : nat) (n : Z) : string :=
  let s := pretty n in
  zeros (w - String.length s) +:+ s.

(** ** Time *)

Abbreviation datetime := Z (only parsing).
Abbreviation timedelta := Z (only parsing).

Definition timedelta_seconds (s : Z) : timedelta := s * 1000000.
Definition timedelta_minutes (m : Z) : timedelta := m * 60 * 1000000.

(** [str(td)], as [timedelta.__str__] builds it. *)
Definition timedelta_str (td : timedelta) : string :=
  let microseconds := td `mod` 1000000 in
  let total := td `div` 1000000 in
  let days := total `div` 86400 in
  let seconds := total `mod` 86400 in
  let mm := seconds `div` 60 in
  let ss := seconds `mod` 60 in
  let hh := mm `div` 60 in
  let mm := mm `mod` 60 in
  let s := pretty hh +:+ ":" +:+ fmt_d 2 mm +:+ ":" +:+ fmt_d 2 ss in
  let s := if days =? 0 then s
           else pretty days +:+ " day" +:+
                (if Z.abs days =? 1 then "" else "s") +:+ ", " +:+ s in
  if microseconds =? 0 then s else s +:+ "." +:+ fmt_d 6 microseconds.

(** [dt.strftime("%H:%M:%S")] *)
Definition strftime_HMS (dt : datetime) : string :=
  let tod := (dt `div` 1000000) `mod` 86400 in
  fmt_d 2 (tod `div` 3600) +:+ ":" +:+ fmt_d 2 ((tod `div` 60) `mod` 60)
    +:+ ":" +:+ fmt_d 2 (tod `mod` 60).

(** ** The decoded feed (gtfs_realtime_pb2)

    Optional fields are [option]s; reading an unset field yields the
    default of its type, as the protobuf accessors do. *)
Module pb.
Record StopTimeEvent := { time : option Z }.
Record StopTimeUpdate :=
  { stop_id : option string; arrival : option StopTimeEvent }.
Record TripDescriptor := { route_id : option string }.
Record TripUpdate :=
  { trip : TripDescriptor; stop_time_update : list StopTimeUpdate }.
Record FeedEntity := { trip_update : option TripUpdate }.
Record FeedMessage := { entity : list FeedEntity }.

(** [stop_time.stop_id] *)
Definition get_stop_id (st : StopTimeUpdate) : string :=
  default "" (stop_id st).
(** [trip_update.trip.route_id] *)
Definition get_route_id (tu : TripUpdate) : string :=
  default "" (route_id (trip tu)).
(** [stop_time.arrival.time] when [stop_time.arrival.HasField("time")] *)
Definition arrival_time (st : StopTimeUpdate) : option Z :=
  arrival st ≫= time.
End pb.

(** ** The static tables *)

(** A row of stops.txt: the value of the stops mapping at a stop_id.  The
    row has a textual stop_name, the column that [find_stops_by_name] and
    [get_incoming_trams] read; its other columns are kept as they are. *)
Module Stop.
Record details :=
  { stop_name : string; other_columns : list (string * string) }.
End Stop.

(** The routes mapping is only looked up, so it is a finite map.  The
    stops mapping is also iterated ([items()], [values()]), in insertion
    order: it is the list of its items, read at the first entry of a key. *)
Abbreviation routes_dict := (gmap string string) (only parsing).
Abbreviation stops_dict := (list (string * Stop.details)) (only parsing).

Fixpoint dict_get {V} (d : list (string * V)) (k : string) : option V :=
  match d with
  | [] => None
  | (k', v) :: d' => if decide (k' = k) then Some v else dict_get d' k
  end.

(** ** Arrival records: the dicts appended to [incoming_trams] *)

Record ArrivalRecord := {
  tram_number : string;
  route_id : string;
  stop_name : string;
  arrival_time : string;
  time_to_arrival : string;
}.

(** [sorted(l, key=key)]: Python's sort is stable and compares keys with
    [<] only; on strings that is the order of [String.ltb]. *)
Fixpoint insort {A} (key : A → string) (x : A) (l : list A) : list A :=
  match l with
  | [] => [x]
  | y :: l' =>
      if String.ltb (key y) (key x) then y :: insort key x l' else x :: l
  end.

Definition sorted {A} (key : A → string) (l : list A) : list A :=
  foldr (insort key) [] l.

(** ** What a session does and what it is given *)

Inductive event :=
  | Print (line : string)       (* print(line) *)
  | Input (prompt : string)     (* input(prompt) *)
  | HttpGet (url : string)      (* requests.get(url) *)
  | Tabulate (table : list (list string)) (headers : list string)
                                (* print(tabulate(table, headers=headers, ...)) *)
  | Sleep (seconds : Z).        (* time.sleep(seconds) *)

Inductive outcome :=
  | Returned                    (* main returned *)
  | Uncaught (e : exn)          (* an exception left main *)
  | Polling.                    (* still in the loop *)

Record world := {
  (** what [load_gtfs_static_files] returns or raises *)
  static_files : result (gmap string string * list (string * Stop.details));
  (** the lines [input] reads *)
  stdin : list string;
  (** per iteration of the loop: [datetime.now()] and what [requests.get]
      returns (the body) or raises *)
  polls : list (Z * result (list Byte.byte));
}.

(** ** What the program takes from its platform

    The Unicode tables behind [str.lower] and [str.strip], the local time
    zone and the range of [datetime.fromtimestamp], and the protobuf
    decoder are not code of this repository. *)
Class Platform := {
  str_lower : string → string;
  str_strip : string → string;
  (** seconds east of UTC of the local zone at a POSIX timestamp *)
  utcoffset : Z → Z;
  (** the timestamps [datetime.fromtimestamp] accepts *)
  timestamp_ok : Z → bool;
  (** what it raises on one it refuses: ValueError, OverflowError or
      OSError, depending on how far out of range the timestamp is *)
  timestamp_error : Z → exn;
  (** [FeedMessage.ParseFromString]; [None] is DecodeError *)
  ParseFromString : list Byte.byte → option pb.FeedMessage;
}.

(** Time window for arrivals (in minutes) *)
Definition TIME_WINDOW_MINUTES : Z := 5.

Section Program.
Context `{Platform}.

(** [datetime.fromtimestamp(t)]: the local wall-clock time at [t]. *)
Definition fromtimestamp (t : Z) : result datetime :=
  if timestamp_ok t then Ok ((t + utcoffset t) * 1000000)
  else Raise (timestamp_error t).

(** *** Stop resolver *)

Definition find_stops_by_name (stops_mapping : stops_dict)
    (stop_name_query : string) : stops_dict :=
  filter (λ item, str_in (str_lower stop_name_query)
                         (str_lower (Stop.stop_name item.2)) = true)
         stops_mapping.

(** *** Arrival extractor *)

(** The body of the inner loop, on the list built so far. *)
Definition visit_stop_time (routes_mapping : routes_dict)
    (selected_stops : stops_dict) (current_time : datetime)
    (trip_update : pb.TripUpdate)
    (incoming_trams : list ArrivalRecord) (stop_time : pb.StopTimeUpdate)
  : result (list ArrivalRecord) :=
  let stop_id := pb.get_stop_id stop_time in
  match dict_get selected_stops stop_id, pb.arrival_time stop_time with
  | Some details, Some t =>
      arrival_time ← fromtimestamp t;
      let time_to_arrival := arrival_time - current_time in
      if (timedelta_seconds 0 <=? time_to_arrival) &&
         (time_to_arrival <=? timedelta_minutes TIME_WINDOW_MINUTES)
      then
        let route_id :=
          if String.eqb (pb.get_route_id trip_update) ""
          then "Unknown Route" else pb.get_route_id trip_update in
        let tram_number := default "Unknown" (routes_mapping !! route_id) in
        let headsign := Stop.stop_name details in
        Ok (incoming_trams ++
            [{| tram_number := tram_number;
                route_id := route_id;
                stop_name := headsign;
                arrival_time := strftime_HMS arrival_time;
                time_to_arrival := before_dot (timedelta_str time_to_arrival) |}])
      else Ok incoming_trams
  | _, _ => Ok incoming_trams
  end.

(** The body of the outer loop. *)
Definition visit_entity (routes_mapping : routes_dict)
    (selected_stops : stops_dict) (current_time : datetime)
    (incoming_trams : list ArrivalRecord) (entity : pb.FeedEntity)
  : result (list ArrivalRecord) :=
  match pb.trip_update entity with
  | Some trip_update =>
      for_each (visit_stop_time routes_mapping selected_stops current_time
                                trip_update)
               incoming_trams (pb.stop_time_update trip_update)
  | None => Ok incoming_trams
  end.

Definition get_incoming_trams (feed : pb.FeedMessage)
    (routes_mapping : routes_dict) (selected_stops : stops_dict)
    (current_time : datetime) : result (list ArrivalRecord) :=
  for_each (visit_entity routes_mapping selected_stops current_time)
           [] (pb.entity feed).

(** *** Board *)

Definition headers : list string :=
  ["Tram Number"; "Stop Name"; "Arrival Time"; "Time to Arrival"].

(** The rows of the table in the order in which they are printed. *)
Definition board_table (trams : list ArrivalRecord) : list (list string) :=
  let sorted_trams := sorted time_to_arrival trams in
  (λ tram, [tram_number tram; stop_name tram; arrival_time tram;
            time_to_arrival tram]) <$> sorted_trams.

Definition display_real_time_board (trams : list ArrivalRecord) : event :=
  Tabulate (board_table trams) headers.

(** *** Feed *)

Definition API_KEY : string := "".
Definition URL : string :=
  "https://go.bkk.hu/api/query/v1/ws/gtfs-rt/full/TripUpdates.pb?key="
  +:+ API_KEY.

(** [fetch_gtfs_rt_feed], on what [requests.get] came back with. *)
Definition fetch_gtfs_rt_feed (response : result (list Byte.byte))
  : result pb.FeedMessage :=
  content ← response;
  match ParseFromString content with
  | Some feed => Ok feed
  | None => Raise DecodeError
  end.

(** *** Session and poll loop *)

(** One iteration of [while True] per element of [polls]; [Polling] when
    the loop is still running after the last of them. *)
Fixpoint poll_loop (routes_mapping : routes_dict) (selected_stops : stops_dict)
    (polls : list (datetime * result (list Byte.byte)))
  : list event * outcome :=
  match polls with
  | [] => ([], Polling)
  | (current_time, response) :: rest =>
      let fetching :=
        [Print (nl +:+ "Fetching real-time data..."); HttpGet URL] in
      match fetch_gtfs_rt_feed response with
      | Raise e => (fetching, Uncaught e)
      | Ok feed =>
          match get_incoming_trams feed routes_mapping selected_stops
                                   current_time with
          | Raise e => (fetching, Uncaught e)
          | Ok trams =>
              let stop_names :=
                join ", " ((λ item, Stop.stop_name item.2) <$> selected_stops) in
              let shown :=
                [Print (esc +:+ "[H" +:+ esc +:+ "[J");
                 Print ("Real-Time Tram Timetable for Stops: " +:+ stop_names
                        +:+ " (Next " +:+ pretty TIME_WINDOW_MINUTES
                        +:+ " Minutes):" +:+ nl);
                 match trams with
                 | [] => Print "No trams arriving within the next 5 minutes."
                 | _ => display_real_time_board trams
                 end;
                 Sleep 30] in
              let later := poll_loop routes_mapping selected_stops rest in
              (fetching ++ shown ++ later.1, later.2)
          end
      end
  end.

Definition main (w : world) : list event * outcome :=
  let loading := Print ("Loading BKK GTFS static data..." +:+ nl) in
  match static_files w with
  | Raise e => ([loading], Uncaught e)
  | Ok (routes_mapping, stops_mapping) =>
      let ask := Input "Enter a stop name to search (e.g., Zsigmond tÃ©r): " in
      match stdin w with
      | [] => ([loading; ask], Uncaught EOFError)
      | line :: _ =>
          let stop_name_query := str_strip line in
          let selected_stops :=
            find_stops_by_name stops_mapping stop_name_query in
          match selected_stops with
          | [] =>
              ([loading; ask;
                Print ("No stops found matching '" +:+ stop_name_query
                       +:+ "'. Please try again.")], Returned)
          | _ =>
              let found :=
                Print (nl +:+ "Found " +:+ pretty (length selected_stops)
                       +:+ " stop(s) for '" +:+ stop_name_query +:+ "':")
                :: ((λ item, Print ("- Stop ID: " +:+ item.1
                                    +:+ ", Stop Name: "
                                    +:+ Stop.stop_name item.2))
                    <$> selected_stops) in
              let monitoring :=
                poll_loop routes_mapping selected_stops (polls w) in
              ([loading; ask] ++ found ++ monitoring.1, monitoring.2)
          end
      end
  end.

End Program.

(** ** A concrete platform for the examples

    ASCII case folding and white space, the fixed zone UTC+1, the years
    1 to 9999, and a decoder that knows two buffers. *)
Module Demo.
Definition lower_char (c : ascii) : ascii :=
  let n := N_of_ascii c in
  if ((65 <=? n) && (n <=? 90))%N then ascii_of_N (n + 32) else c.

Fixpoint lower (s : string) : string :=
  match s with
  | "" => ""
  | String c s' => String (lower_char c) (lower s')
  end.

Definition is_space (c : ascii) : bool :=
  let n := N_of_ascii c in
  ((n =? 32) || ((9 <=? n) && (n <=? 13)) || ((28 <=? n) && (n <=? 31)))%N.

Fixpoint lstrip (s : string) : string :=
  match s with
  | "" => ""
  | String c s' => if is_space c then lstrip s' else s
  end.

Fixpoint rstrip (s : string) : string :=
  match s with
  | "" => ""
  | String c s' =>
      match rstrip s' with
      | "" => if is_space c then "" else String c ""
      | r => String c r
      end
  end.

Definition strip (s : string) : string := rstrip (lstrip s).

Definition in_years_1_to_9999 (t : Z) : bool :=
  (-62135596800 <=? t + 3600) && (t + 3600 <=? 253402300799).

(** Outside the years 1 to 9999: ValueError while the C library can still
    break the time down (the year fits a C int), OSError beyond that. *)
Definition refusal (t : Z) : exn :=
  if (-67768040609740800 <=? t + 3600) && (t + 3600 <=? 67768036191676799)
  then ValueError else OSError.

(** The buffer of a feed that has a header (version 2.0) and no entity. *)
Definition header_only : list Byte.byte :=
  [Byte.x0a; Byte.x05; Byte.x0a; Byte.x03; Byte.x32; Byte.x2e; Byte.x30].

(** A buffer cut off after the tag of its first field. *)
Definition truncated : list Byte.byte := [Byte.x0a].

#[local] Instance byte_eq_dec : EqDecision Byte.byte :=
  Stdlib.Strings.Byte.byte_eq_dec.

Definition parse (content : list Byte.byte) : option pb.FeedMessage :=
  if decide (content = header_only) then Some {| pb.entity := [] |}
  else None.

#[global] Instance platform : Platform := {|
  str_lower := lower;
  str_strip := strip;
  utcoffset := λ _, 3600;
  timestamp_ok := in_years_1_to_9999;
  timestamp_error := refusal;
  ParseFromString := parse;
|}.

(** Static tables: one stop, one route. *)
Definition zsigmond_ter : Stop.details :=
  {| Stop.stop_name := "Zsigmond tér";
     Stop.other_columns := [("stop_lat", "47.528"); ("stop_lon", "19.037")] |}.
Definition stops : list (string * Stop.details) := [("F02461", zsigmond_ter)].
Definition routes : gmap string string := {[ "3170" := "17" ]}.

(** A feed around the POSIX time [t0]; the session's clock shows [now],
    the local time at [t0]. *)
Definition t0 : Z := 1700000000.
Definition now : Z := (t0 + 3600) * 1000000.

Definition stop_time (id : string) (t : Z) : pb.StopTimeUpdate :=
  {| pb.stop_id := Some id; pb.arrival := Some {| pb.time := Some t |} |}.
Definition no_prediction (id : string) : pb.StopTimeUpdate :=
  {| pb.stop_id := Some id; pb.arrival := Some {| pb.time := None |} |}.
Definition trip_of (rid : option string) (sts : list pb.StopTimeUpdate)
  : pb.TripUpdate :=
  {| pb.trip := {| pb.route_id := rid |}; pb.stop_time_update := sts |}.

Definition tram17 : pb.TripUpdate :=
  trip_of (Some "3170")
    [stop_time "F02461" t0;           (* arrives now *)
     stop_time "F02461" (t0 + 300);   (* arrives at the horizon *)
     stop_time "F02461" (t0 + 301);   (* a second too late *)
     stop_time "F02461" (t0 - 1);     (* a second gone *)
     stop_time "F00583" (t0 + 60);    (* another stop *)
     no_prediction "F02461"].
Definition no_route : pb.TripUpdate :=
  trip_of None [stop_time "F02461" (t0 + 100)].
Definition stale_route : pb.TripUpdate :=
  trip_of (Some "9999") [stop_time "F02461" (t0 + 200)].

Definition feed : pb.FeedMessage :=
  {| pb.entity := [ {| pb.trip_update := Some tram17 |};
                    {| pb.trip_update := None |};
                    {| pb.trip_update := Some no_route |};
                    {| pb.trip_update := Some stale_route |} ] |}.

Definition record (number rid arrives left : string) : ArrivalRecord :=
  {| tram_number := number; route_id := rid; stop_name := "Zsigmond tér";
     arrival_time := arrives; time_to_arrival := left |}.

(** What [get_incoming_trams feed routes stops now] returns. *)
Definition trams : list ArrivalRecord :=
  [record "17" "3170" "23:13:20" "0:00:00";
   record "17" "3170" "23:18:20" "0:05:00";
   record "Unknown" "Unknown Route" "23:15:00" "0:01:40";
   record "Unknown" "9999" "23:16:40" "0:03:20"].

(** A record that is due in [d]. *)
Definition due (d : Z) : ArrivalRecord :=
  record "17" "3170" "23:15:00" (before_dot (timedelta_str d)).

(** A session in which the second of three polls brings a buffer that
    does not decode. *)
Definition session : world :=
  {| static_files := Ok (routes, stops);
     stdin := ["zsigmond"];
     polls := [(now, Ok header_only);
               (now + 30000000, Ok truncated);
               (now + 60000000, Ok header_only)] |}.

Definition session_trace : list event :=
  [Print ("Loading BKK GTFS static data..." +:+ nl);
   Input "Enter a stop name to search (e.g., Zsigmond tÃ©r): ";
   Print (nl +:+ "Found 1 stop(s) for 'zsigmond':");
   Print "- Stop ID: F02461, Stop Name: Zsigmond tér";
   Print (nl +:+ "Fetching real-time data...");
   HttpGet URL;
   Print (esc +:+ "[H" +:+ esc +:+ "[J");
   Print ("Real-Time Tram Timetable for Stops: Zsigmond tér (Next 5 Minutes):"
          +:+ nl);
   Print "No trams arriving within the next 5 minutes.";
   Sleep 30;
   Print (nl +:+ "Fetching real-time data...");
   HttpGet URL].

(** A session in which the first query matches no stop and a second
    query is waiting on the standard input. *)
Definition session_no_match : world :=
  {| static_files := Ok (routes, stops);
     stdin := ["xyz"; "zsigmond"];
     polls := [(now, Ok header_only)] |}.

Definition session_no_match_trace : list event :=
  [Print ("Loading BKK GTFS static data..." +:+ nl);
   Input "Enter a stop name to search (e.g., Zsigmond tÃ©r): ";
   Print "No stops found matching 'xyz'. Please try again."].

(** A second stop. *)
Definition other_stop : Stop.details :=
  {| Stop.stop_name := "Kolosy tér"; Stop.other_columns := [] |}.

(** A stops mapping with both stops. *)
Definition two_stops : list (string * Stop.details) :=
  [("F00583", other_stop); ("F02461", zsigmond_ter)].

(** The buffers of two feeds with a header and one entity, the trip of
    route 3170 with one stop time at F02461: arriving two minutes after
    [t0], and arriving in the year 10000. *)
Definition one_arrival : list Byte.byte :=
  [Byte.x0a; Byte.x05; Byte.x0a; Byte.x03; Byte.x32; Byte.x2e; Byte.x30;
   Byte.x12; Byte.x1f; Byte.x0a; Byte.x01; Byte.x31; Byte.x1a; Byte.x1a;
   Byte.x0a; Byte.x06; Byte.x2a; Byte.x04; Byte.x33; Byte.x31; Byte.x37;
   Byte.x30; Byte.x12; Byte.x10; Byte.x12; Byte.x06; Byte.x10; Byte.xf8;
   Byte.xe2; Byte.xcf; Byte.xaa; Byte.x06; Byte.x22; Byte.x06; Byte.x46;
   Byte.x30; Byte.x32; Byte.x34; Byte.x36; Byte.x31].
Definition one_refused : list Byte.byte :=
  [Byte.x0a; Byte.x05; Byte.x0a; Byte.x03; Byte.x32; Byte.x2e; Byte.x30;
   Byte.x12; Byte.x20; Byte.x0a; Byte.x01; Byte.x31; Byte.x1a; Byte.x1b;
   Byte.x0a; Byte.x06; Byte.x2a; Byte.x04; Byte.x33; Byte.x31; Byte.x37;
   Byte.x30; Byte.x12; Byte.x11; Byte.x12; Byte.x07; Byte.x10; Byte.x80;
   Byte.x83; Byte.xd1; Byte.xff; Byte.xaf; Byte.x07; Byte.x22; Byte.x06;
   Byte.x46; Byte.x30; Byte.x32; Byte.x34; Byte.x36; Byte.x31].

Definition year_10000 : Z := 253402300800.
Definition tram17_soon : pb.TripUpdate :=
  trip_of (Some "3170") [stop_time "F02461" (t0 + 120)].
Definition tram17_never : pb.TripUpdate :=
  trip_of (Some "3170") [stop_time "F02461" year_10000].
Definition feed_one_arrival : pb.FeedMessage :=
  {| pb.entity := [ {| pb.trip_update := Some tram17_soon |} ] |}.
Definition feed_refused : pb.FeedMessage :=
  {| pb.entity := [ {| pb.trip_update := Some tram17_never |} ] |}.

(** The platform with a decoder that knows these two buffers as well. *)
Definition parse_more (content : list Byte.byte) : option pb.FeedMessage :=
  if decide (content = one_arrival) then Some feed_one_arrival
  else if decide (content = one_refused) then Some feed_refused
  else parse content.

Definition platform_more : Platform := {|
  str_lower := lower;
  str_strip := strip;
  utcoffset := λ _, 3600;
  timestamp_ok := in_years_1_to_9999;
  timestamp_error := refusal;
  ParseFromString := parse_more;
|}.


(** A feed with two arrivals that [datetime.fromtimestamp] refuses: one
    at 2^62 seconds and, after it, one in the year 10000. *)
Definition far_future : Z := 4611686018427387904.
Definition feed_two_refused : pb.FeedMessage :=
  {| pb.entity :=
       [ {| pb.trip_update :=
              Some (trip_of (Some "3170")
                      [stop_time "F02461" (t0 + 60);
                       stop_time "F02461" far_future;
                       stop_time "F02461" year_10000]) |} ] |}.

(** A session that polls once and finds the tram. *)
Definition session_with_tram : world :=
  {| static_files := Ok (routes, stops);
     stdin := ["zsigmond"];
     polls := [(now, Ok one_arrival)] |}.
End Demo.

(** ** Vocabulary of the statements *)

(** The horizon: [timedelta(minutes=TIME_WINDOW_MINUTES)]. *)
Definition horizon : Z := timedelta_minutes TIME_WINDOW_MINUTES.

(** [st] is a stop-time event of the trip update [tu] of an entity of
    [feed]. *)
Definition in_feed (feed : pb.FeedMessage) (tu : pb.TripUpdate)
    (st : pb.StopTimeUpdate) : Prop :=
  ∃ e, e ∈ pb.entity feed ∧ pb.trip_update e = Some tu
       ∧ st ∈ pb.stop_time_update tu.

(** The dict that [get_incoming_trams] appends for an event of [tu] at a
    stop with [details] that arrives at [arr], when it is [now]. *)
Definition record_of (routes : gmap string string) (details : Stop.details)
    (tu : pb.TripUpdate) (arr now : Z) : ArrivalRecord :=
  let rid := if String.eqb (pb.get_route_id tu) ""
             then "Unknown Route" else pb.get_route_id tu in
  {| tram_number := default "Unknown" (routes !! rid);
     route_id := rid;
     stop_name := Stop.stop_name details;
     arrival_time := strftime_HMS arr;
     time_to_arrival := before_dot (timedelta_str (arr - now)) |}.

(** [sub] is a substring of [s]. *)
Definition is_substring (sub s : string) : Prop :=
  ∃ pre post, s = pre +:+ sub +:+ post.

(** The decimal digit [k] as a character. *)
Definition digit (k : Z) : ascii := ascii_of_N (48 + Z.to_N k).

(** "H:MM:SS" for a number of seconds below ten hours. *)
Definition hms (secs : Z) : string :=
  let mm := (secs `div` 60) `mod` 60 in
  let ss := secs `mod` 60 in
  String (digit (secs `div` 3600))
    (String ":" (String (digit (mm `div` 10)) (String (digit (mm `mod` 10))
      (String ":" (String (digit (ss `div` 10)) (String (digit (ss `mod` 10))
        "")))))).

(** The order in which [sorted] leaves two neighbours: the key of the
    second is not below the key of the first. *)
Definition key_le {A} (key : A → string) (x y : A) : Prop :=
  String.ltb (key y) (key x) = false.

(** The row of the table for a record. *)
Definition row_of (tram : ArrivalRecord) : list string :=
  [tram_number tram; stop_name tram; arrival_time tram; time_to_arrival tram].

(** How often a trace reads the standard input, and how often it polls. *)
Definition inputs_read (trace : list event) : nat :=
  length (List.filter (λ ev, match ev with Input _ => true | _ => false end)
                      trace).
Definition fetches (trace : list event) : nat :=
  length (List.filter (λ ev, match ev with HttpGet _ => true | _ => false end)
                      trace).

(** A poll in which nothing raises: the feed is fetched and decoded, and
    the extraction returns. *)
Definition cycle_ok `{Platform} (routes : gmap string string)
    (sel : list (string * Stop.details))
    (poll : Z * result (list Byte.byte)) : Prop :=
  ∃ feed trams,
    fetch_gtfs_rt_feed poll.2 = Ok feed
    ∧ get_incoming_trams feed routes sel poll.1 = Ok trams.

(** The records of one stop-time event, of one entity and of a feed, when
    every timestamp is one that [datetime.fromtimestamp] accepts: what the
    two loops of [get_incoming_trams] append, in the order of the feed. *)
Definition event_records `{Platform} (routes : gmap string string)
    (sel : list (string * Stop.details)) (now : Z)
    (tu : pb.TripUpdate) (st : pb.StopTimeUpdate) : list ArrivalRecord :=
  match dict_get sel (pb.get_stop_id st), pb.arrival_time st with
  | Some details, Some t =>
      let arr := (t + utcoffset t) * 1000000 in
      if bool_decide (0 ≤ arr - now ≤ horizon)
      then [record_of routes details tu arr now] else []
  | _, _ => []
  end.

Definition entity_records `{Platform} (routes : gmap string string)
    (sel : list (string * Stop.details)) (now : Z)
    (e : pb.FeedEntity) : list ArrivalRecord :=
  match pb.trip_update e with
  | Some tu => pb.stop_time_update tu ≫= event_records routes sel now tu
  | None => []
  end.

Definition feed_records `{Platform} (feed : pb.FeedMessage)
    (routes : gmap string string) (sel : list (string * Stop.details))
    (now : Z) : list ArrivalRecord :=
  pb.entity feed ≫= entity_records routes sel now.

(** An event at a selected stop whose arrival timestamp
    [datetime.fromtimestamp] refuses. *)
Definition refused `{Platform} (sel : list (string * Stop.details))
    (st : pb.StopTimeUpdate) : Prop :=
  ∃ t, is_Some (dict_get sel (pb.get_stop_id st))
       ∧ pb.arrival_time st = Some t ∧ timestamp_ok t = false.

(** The first error in a list, in the order of the list. *)
Fixpoint first_error {A} (err : A → option exn) (l : list A) : option exn :=
  match l with
  | [] => None
  | x :: l' => match err x with Some e => Some e | None => first_error err l' end
  end.

(** What [datetime.fromtimestamp] raises on an event at a selected stop, on
    the first such event of an entity and on the first of a feed. *)
Definition event_refusal `{Platform} (sel : list (string * Stop.details))
    (st : pb.StopTimeUpdate) : option exn :=
  match dict_get sel (pb.get_stop_id st), pb.arrival_time st with
  | Some _, Some t => if timestamp_ok t then None else Some (timestamp_error t)
  | _, _ => None
  end.

Definition entity_refusal `{Platform} (sel : list (string * Stop.details))
    (e : pb.FeedEntity) : option exn :=
  match pb.trip_update e with
  | Some tu => first_error (event_refusal sel) (pb.stop_time_update tu)
  | None => None
  end.

Definition feed_refusal `{Platform} (feed : pb.FeedMessage)
    (sel : list (string * Stop.details)) : option exn :=
  first_error (entity_refusal sel) (pb.entity feed).

(** [sel'] holds some of the entries of [sel]. *)
Definition sub_dict {V} (sel' sel : list (string * V)) : Prop :=
  ∀ k v, dict_get sel' k = Some v → dict_get sel k = Some v.

(** How often a trace sleeps for 30 seconds, and the tables it prints. *)
Definition sleeps (trace : list event) : nat :=
  length (List.filter (λ ev, match ev with Sleep s => s =? 30 | _ => false end)
                      trace).
Definition tables (trace : list event) : list (list (list string)) :=
  trace ≫= λ ev, match ev with Tabulate table _ => [table] | _ => [] end.

(** How often a trace prints that no tram arrives. *)
Definition no_tram_messages (trace : list event) : nat :=
  length (List.filter
            (λ ev, match ev with
                   | Print line =>
                       String.eqb line
                         "No trams arriving within the next 5 minutes."
                   | _ => false
                   end)
            trace).

(** Something raises [e] in a poll: the fetch, the decoding or the
    extraction. *)
Definition cycle_raises `{Platform} (routes : gmap string string)
    (sel : list (string * Stop.details))
    (poll : Z * result (list Byte.byte)) (e : exn) : Prop :=
  fetch_gtfs_rt_feed poll.2 = Raise e
  ∨ ∃ feed, fetch_gtfs_rt_feed poll.2 = Ok feed
            ∧ get_incoming_trams feed routes sel poll.1 = Raise e.

(** A trace that only prints and asks. *)
Definition quiet (trace : list event) : Prop :=
  Forall (λ ev, match ev with Print _ | Input _ => True | _ => False end) trace.

(** * Properties *)

(** ** Loops *)

Lemma bind_Ok {A B} (f : A → result B) (a : A) : (Ok a ≫= f) = f a.
Proof. reflexivity. Qed.

Lemma for_each_app {S A} (body : S → A → result S) s l1 l2 :
  for_each body s (l1 ++ l2) = (for_each body s l1 ≫= λ s', for_each body s' l2).
Proof.
  revert s. induction l1 as [|x l1 IH]; intros s; simpl; [done|].
  destruct (body s x) as [s'|e]; [by rewrite ?bind_Ok | done].
Qed.

Lemma for_each_ext {S A} (f g : S → A → result S) s l :
  (∀ s' x, x ∈ l → f s' x = g s' x) → for_each f s l = for_each g s l.
Proof.
  revert s. induction l as [|x l IH]; intros s Hfg; simpl; [done|].
  rewrite Hfg by left. destruct (g s x) as [s'|e]; [|done].
  rewrite ?bind_Ok. apply IH. intros s'' y Hy. apply Hfg. by right.
Qed.

(** Loops that only append to the list they build. *)
Section Appending.
Context {A B : Type} (body : list B → A → result (list B)).
Hypothesis body_appends :
  ∀ acc x, body acc x = (body [] x ≫= λ rs, Ok (acc ++ rs)).

Lemma for_each_appends acc l :
  for_each body acc l = (for_each body [] l ≫= λ rs, Ok (acc ++ rs)).
Proof.
  revert acc. induction l as [|x l IH]; intros acc; simpl.
  - by rewrite app_nil_r.
  - rewrite (body_appends acc x). destruct (body [] x) as [rs|e]; [|done].
    rewrite ?bind_Ok, (IH (acc ++ rs)), (IH rs).
    destruct (for_each body [] l) as [rs'|e]; [|done].
    by rewrite ?bind_Ok; simpl; rewrite app_assoc.
Qed.

Lemma for_each_elem_of l out r :
  for_each body [] l = Ok out →
  r ∈ out ↔ ∃ x rs, x ∈ l ∧ body [] x = Ok rs ∧ r ∈ rs.
Proof.
  revert out. induction l as [|x l IH]; intros out; simpl.
  - intros [= <-]. split; [by intros ?%elem_of_nil|].
    by intros (? & ? & ?%elem_of_nil & _).
  - destruct (body [] x) as [rs|e] eqn:Hx; [|done].
    rewrite ?bind_Ok, for_each_appends.
    destruct (for_each body [] l) as [rs'|e] eqn:Hl; [|done].
    rewrite ?bind_Ok; simpl. intros [= <-]. rewrite elem_of_app, (IH rs' eq_refl).
    split.
    + intros [Hr|(y & rs'' & Hy & Hb & Hr)].
      * exists x, rs. split_and!; [left|done..].
      * exists y, rs''. split_and!; [by right|done..].
    + intros (y & rs'' & Hy & Hb & Hr).
      apply elem_of_cons in Hy as [->|Hy].
      * left. congruence.
      * right. eauto.
Qed.

Lemma for_each_Ok_all l out x :
  for_each body [] l = Ok out → x ∈ l → is_Ok (body [] x).
Proof.
  intros Hl (l1 & l2 & ->)%list_elem_of_split. revert Hl.
  rewrite for_each_app. destruct (for_each body [] l1) as [acc|]; [|done].
  rewrite bind_Ok. simpl. rewrite body_appends.
  destruct (body [] x) as [rs|]; [by eexists | done].
Qed.

Lemma for_each_is_Ok l :
  (∀ x, x ∈ l → is_Ok (body [] x)) → is_Ok (for_each body [] l).
Proof.
  induction l as [|x l IH]; intros Hl; simpl; [by eexists|].
  destruct (Hl x) as [rs Hx]; [left|]. rewrite Hx, ?bind_Ok, for_each_appends.
  destruct IH as [rs' ->]; [intros; apply Hl; by right|].
  rewrite ?bind_Ok. by eexists.
Qed.
End Appending.

(** ** Arrival extractor *)

Section ExtractorFacts.
Context `{Platform}.
Implicit Types (feed : pb.FeedMessage) (routes : gmap string string).
Implicit Types (sel : list (string * Stop.details)) (now : Z).

Lemma window_test (x : Z) :
  (timedelta_seconds 0 <=? x) && (x <=? timedelta_minutes TIME_WINDOW_MINUTES)
  = bool_decide (0 ≤ x ≤ horizon).
Proof.
  apply Bool.eq_iff_eq_true.
  rewrite andb_true_iff, !Z.leb_le, bool_decide_eq_true.
  unfold timedelta_seconds, horizon. lia.
Qed.

Lemma visit_stop_time_unfold routes sel now tu acc st :
  visit_stop_time routes sel now tu acc st =
  match dict_get sel (pb.get_stop_id st), pb.arrival_time st with
  | Some details, Some t =>
      fromtimestamp t ≫= λ arr,
        if bool_decide (0 ≤ arr - now ≤ horizon)
        then Ok (acc ++ [record_of routes details tu arr now]) else Ok acc
  | _, _ => Ok acc
  end.
Proof.
  unfold visit_stop_time.
  destruct (dict_get sel _) as [details|]; [|done].
  destruct (pb.arrival_time st) as [t|]; [|done].
  destruct (fromtimestamp t) as [arr|e]; [|done].
  rewrite !bind_Ok. cbv zeta. by rewrite window_test.
Qed.

Lemma visit_stop_time_appends routes sel now tu acc st :
  visit_stop_time routes sel now tu acc st =
  (visit_stop_time routes sel now tu [] st ≫= λ rs, Ok (acc ++ rs)).
Proof.
  rewrite !visit_stop_time_unfold.
  destruct (dict_get sel _) as [details|]; [|by simpl; rewrite app_nil_r].
  destruct (pb.arrival_time st) as [t|]; [|by simpl; rewrite app_nil_r].
  destruct (fromtimestamp t) as [arr|e]; [|done]. simpl.
  case_bool_decide; simpl; by rewrite ?app_nil_r.
Qed.

Lemma visit_entity_appends routes sel now acc e :
  visit_entity routes sel now acc e =
  (visit_entity routes sel now [] e ≫= λ rs, Ok (acc ++ rs)).
Proof.
  unfold visit_entity. destruct (pb.trip_update e) as [tu|].
  - apply for_each_appends. intros. apply visit_stop_time_appends.
  - by simpl; rewrite app_nil_r.
Qed.

(** The events that put a record on the list, and the record. *)
Lemma visit_stop_time_elem_of routes sel now tu st rs r :
  visit_stop_time routes sel now tu [] st = Ok rs →
  r ∈ rs ↔
  ∃ details t arr,
    dict_get sel (pb.get_stop_id st) = Some details
    ∧ pb.arrival_time st = Some t
    ∧ fromtimestamp t = Ok arr
    ∧ 0 ≤ arr - now ≤ horizon
    ∧ r = record_of routes details tu arr now.
Proof.
  rewrite visit_stop_time_unfold.
  destruct (dict_get sel _) as [details|];
    [|intros [= <-]; split; [by intros ?%elem_of_nil | by intros (?&?&?&?&_)]].
  destruct (pb.arrival_time st) as [t|];
    [|intros [= <-];
      split; [by intros ?%elem_of_nil | by intros (?&?&?&_&?&_)]].
  destruct (fromtimestamp t) as [arr|e] eqn:Harr; [|done]. rewrite bind_Ok.
  case_bool_decide as Hw; intros [= <-].
  - rewrite list_elem_of_singleton. split.
    + intros ->. by exists details, t, arr.
    + intros (? & ? & ? & [= <-] & [= <-] & Harr' & _ & ->). congruence.
  - split; [by intros ?%elem_of_nil|].
    intros (? & ? & ? & _ & [= <-] & Harr' & ? & _).
    rewrite Harr in Harr'. by injection Harr' as <-.
Qed.

Lemma get_incoming_trams_elem_of feed routes sel now recs r :
  get_incoming_trams feed routes sel now = Ok recs →
  r ∈ recs ↔
  ∃ tu st details t arr,
    in_feed feed tu st
    ∧ dict_get sel (pb.get_stop_id st) = Some details
    ∧ pb.arrival_time st = Some t
    ∧ fromtimestamp t = Ok arr
    ∧ 0 ≤ arr - now ≤ horizon
    ∧ r = record_of routes details tu arr now.
Proof.
  unfold get_incoming_trams. intros Hget.
  rewrite (for_each_elem_of _ (visit_entity_appends routes sel now) _ _ r Hget).
  split.
  - intros (e & rs & He & Hrs & Hr). unfold visit_entity in Hrs.
    destruct (pb.trip_update e) as [tu|] eqn:Htu;
      [|injection Hrs as <-; by apply elem_of_nil in Hr].
    apply (for_each_elem_of _ (visit_stop_time_appends routes sel now tu) _ _ r)
      in Hrs.
    apply Hrs in Hr as (st & rs' & Hst & Hrs' & Hr).
    apply (visit_stop_time_elem_of _ _ _ _ _ _ r) in Hrs'.
    apply Hrs' in Hr as (details & t & arr & ?).
    exists tu, st, details, t, arr. split; [by exists e | done].
  - intros (tu & st & details & t & arr & (e & He & Htu & Hst) & Hd & Ht & Harr
            & Hw & ->).
    destruct (visit_entity routes sel now [] e) as [rs|ex] eqn:Hrs.
    + exists e, rs. split_and!; [done..|].
      unfold visit_entity in Hrs. rewrite Htu in Hrs.
      apply (for_each_elem_of _ (visit_stop_time_appends routes sel now tu)
               _ _ (record_of routes details tu arr now)) in Hrs.
      apply Hrs.
      exists st, [record_of routes details tu arr now]. split_and!; [done| |].
      * rewrite visit_stop_time_unfold, Hd, Ht, Harr. simpl.
        by rewrite bool_decide_eq_true_2.
      * by apply list_elem_of_singleton.
    + exfalso. revert Hget.
      apply list_elem_of_split in He as (es1 & es2 & ->).
      rewrite for_each_app.
      destruct (for_each _ [] es1) as [acc|]; [|done]. simpl.
      by rewrite visit_entity_appends, Hrs.
Qed.

(** Only a timestamp that [datetime.fromtimestamp] refuses makes the
    extraction raise. *)
Lemma get_incoming_trams_is_Ok feed routes sel now :
  (∀ tu st t, in_feed feed tu st → is_Some (dict_get sel (pb.get_stop_id st))
     → pb.arrival_time st = Some t → timestamp_ok t = true) →
  is_Ok (get_incoming_trams feed routes sel now).
Proof.
  intros Hok. apply (for_each_is_Ok _ (visit_entity_appends routes sel now)).
  intros e He. unfold visit_entity.
  destruct (pb.trip_update e) as [tu|] eqn:Htu; [|by eexists].
  apply (for_each_is_Ok _ (visit_stop_time_appends routes sel now tu)).
  intros st Hst. rewrite visit_stop_time_unfold.
  destruct (dict_get sel _) as [details|] eqn:Hd; [|by eexists].
  destruct (pb.arrival_time st) as [t|] eqn:Ht; [|by eexists].
  unfold fromtimestamp. rewrite (Hok tu st t); [|by exists e|by eexists|done].
  simpl. case_bool_decide; by eexists.
Qed.

Lemma get_incoming_trams_Ok_inv feed routes sel now recs tu st t :
  get_incoming_trams feed routes sel now = Ok recs →
  in_feed feed tu st → is_Some (dict_get sel (pb.get_stop_id st)) →
  pb.arrival_time st = Some t → timestamp_ok t = true.
Proof.
  intros Hget (e & He & Htu & Hst) [details Hd] Ht.
  destruct (for_each_Ok_all _ (visit_entity_appends routes sel now) _ _ e
              Hget He) as [rs Hrs].
  unfold visit_entity in Hrs. rewrite Htu in Hrs.
  destruct (for_each_Ok_all _ (visit_stop_time_appends routes sel now tu) _ _
              st Hrs Hst) as [rs' Hrs'].
  rewrite visit_stop_time_unfold, Hd, Ht in Hrs'. unfold fromtimestamp in Hrs'.
  by destruct (timestamp_ok t).
Qed.

(** Whether the extraction raises does not depend on the routes mapping. *)
Lemma get_incoming_trams_is_Ok_routes feed routes routes' sel now :
  is_Ok (get_incoming_trams feed routes sel now) →
  is_Ok (get_incoming_trams feed routes' sel now).
Proof.
  intros [recs Hget]. apply get_incoming_trams_is_Ok. intros tu st t.
  by apply (get_incoming_trams_Ok_inv _ _ _ _ _ _ _ _ Hget).
Qed.

Lemma visit_stop_time_trip routes sel now tu tu' acc st :
  pb.trip tu = pb.trip tu' →
  visit_stop_time routes sel now tu acc st
  = visit_stop_time routes sel now tu' acc st.
Proof. unfold visit_stop_time, pb.get_route_id. by intros ->. Qed.

Lemma dict_get_Some {V} (d : list (string * V)) k v :
  dict_get d k = Some v → (k, v) ∈ d.
Proof.
  induction d as [|[k' v'] d IH]; simpl; [done|].
  case_decide as Hk; [intros [= ->]; subst; left | right; auto].
Qed.

Lemma dict_get_None {V} (d : list (string * V)) k :
  dict_get d k = None ↔ k ∉ d.*1.
Proof.
  induction d as [|[k' v'] d IH]; simpl.
  - split; [intros _ ?%elem_of_nil | ]; done.
  - rewrite not_elem_of_cons. case_decide as Hk; simpl.
    + split; [done | by intros [? _]].
    + rewrite IH. split; [intros ?; split; [congruence | done] | by intros [_ ?]].
Qed.

(** C1. Every record that [get_incoming_trams] returns is the record of a
    stop-time event of the feed whose time to arrival, its arrival time
    minus [now], lies between 0 and the horizon, both included; and an event
    at a selected stop whose time to arrival is exactly 0 or exactly the
    horizon has its record in the result. *)
Theorem time_to_arrival_within_horizon feed routes sel now recs :
  get_incoming_trams feed routes sel now = Ok recs →
  (∀ r, r ∈ recs →
     ∃ tu st t arr,
       in_feed feed tu st ∧ pb.arrival_time st = Some t
       ∧ fromtimestamp t = Ok arr
       ∧ 0 ≤ arr - now ≤ horizon
       ∧ time_to_arrival r = before_dot (timedelta_str (arr - now)))
  ∧ (∀ tu st details t arr,
       in_feed feed tu st →
       dict_get sel (pb.get_stop_id st) = Some details →
       pb.arrival_time st = Some t → fromtimestamp t = Ok arr →
       arr - now = 0 ∨ arr - now = horizon →
       record_of routes details tu arr now ∈ recs).
Proof.
  intros Hget. split.
  - intros r Hr.
    apply (get_incoming_trams_elem_of _ _ _ _ _ r Hget) in Hr
      as (tu & st & details & t & arr & ? & ? & ? & ? & ? & ->).
    by exists tu, st, t, arr.
  - intros tu st details t arr Hin Hd Ht Harr Hb.
    apply (get_incoming_trams_elem_of _ _ _ _ _ _ Hget).
    exists tu, st, details, t, arr. split_and!; try done.
    + destruct Hb as [-> | ->]; done.
    + destruct Hb as [-> | ->]; done.
Qed.

(** C5. For an event that is retained (selected stop, arrival within the
    window), whatever the trip's route id and the routes mapping: the loop
    body appends one record and raises nothing, the record is in the result
    of the call, an absent or blank route id is replaced by "Unknown Route",
    and a route id without an entry in the routes mapping gets the label
    "Unknown".  The routes mapping never decides whether the call raises. *)
Theorem unknown_route_sentinels feed routes sel now tu st details t arr :
  in_feed feed tu st →
  dict_get sel (pb.get_stop_id st) = Some details →
  pb.arrival_time st = Some t → fromtimestamp t = Ok arr →
  0 ≤ arr - now ≤ horizon →
  ∃ r,
    (∀ acc, visit_stop_time routes sel now tu acc st = Ok (acc ++ [r]))
    ∧ (∀ recs, get_incoming_trams feed routes sel now = Ok recs → r ∈ recs)
    ∧ (pb.route_id (pb.trip tu) = None ∨ pb.route_id (pb.trip tu) = Some "" →
       route_id r = "Unknown Route"
       ∧ tram_number r = default "Unknown" (routes !! "Unknown Route"))
    ∧ (∀ rid, pb.route_id (pb.trip tu) = Some rid → rid ≠ "" →
       routes !! rid = None →
       route_id r = rid ∧ tram_number r = "Unknown")
    ∧ (∀ routes', is_Ok (get_incoming_trams feed routes' sel now) →
       is_Ok (get_incoming_trams feed routes sel now)).
Proof.
  intros Hin Hd Ht Harr Hw. exists (record_of routes details tu arr now).
  split_and!.
  - intros acc. rewrite visit_stop_time_unfold, Hd, Ht, Harr, bind_Ok.
    by rewrite bool_decide_eq_true_2.
  - intros recs Hget. apply (get_incoming_trams_elem_of _ _ _ _ _ _ Hget).
    by exists tu, st, details, t, arr.
  - unfold record_of, pb.get_route_id. by intros [-> | ->].
  - unfold record_of, pb.get_route_id. intros rid -> Hrid Hnone. simpl.
    apply String.eqb_neq in Hrid. by rewrite Hrid, Hnone.
  - intros routes'. apply get_incoming_trams_is_Ok_routes.
Qed.

(** C6. A stop-time event without an arrival timestamp is skipped: the loop
    body leaves the list as it is and raises nothing, and the call returns
    what it returns on the feed without that event, so the events around it
    are processed as if it were not there. *)
Theorem event_without_arrival_time_skipped routes sel now st :
  pb.arrival_time st = None →
  (∀ tu acc, visit_stop_time routes sel now tu acc st = Ok acc)
  ∧ (∀ es1 es2 trip sts1 sts2,
       get_incoming_trams
         {| pb.entity := es1 ++
              {| pb.trip_update := Some
                   {| pb.trip := trip;
                      pb.stop_time_update := sts1 ++ st :: sts2 |} |} :: es2 |}
         routes sel now
       = get_incoming_trams
         {| pb.entity := es1 ++
              {| pb.trip_update := Some
                   {| pb.trip := trip;
                      pb.stop_time_update := sts1 ++ sts2 |} |} :: es2 |}
         routes sel now).
Proof.
  intros Hnone.
  assert (Hskip : ∀ tu acc, visit_stop_time routes sel now tu acc st = Ok acc).
  { intros tu acc. rewrite visit_stop_time_unfold, Hnone.
    by destruct (dict_get sel _). }
  split; [done|]. intros es1 es2 trip sts1 sts2.
  unfold get_incoming_trams. simpl. rewrite !for_each_app.
  destruct (for_each _ [] es1) as [acc|]; [|done]. rewrite !bind_Ok. simpl.
  f_equal. unfold visit_entity. simpl. rewrite !for_each_app.
  rewrite (for_each_ext _
    (visit_stop_time routes sel now
       {| pb.trip := trip; pb.stop_time_update := sts1 ++ sts2 |}) acc sts1)
    by (intros; by apply visit_stop_time_trip).
  destruct (for_each _ acc sts1) as [acc'|]; [|done]. rewrite !bind_Ok. simpl.
  rewrite Hskip, bind_Ok. apply for_each_ext.
  intros; by apply visit_stop_time_trip.
Qed.

(** C7. Every record that [get_incoming_trams] returns is the record of an
    event whose stop_id is a key of the selected stops it was given, and it
    carries the name that the selected stops hold for that key; an event
    whose stop_id is not a key is passed over. *)
Theorem records_only_for_selected_stops feed routes sel now :
  (∀ recs r,
     get_incoming_trams feed routes sel now = Ok recs → r ∈ recs →
     ∃ tu st details,
       in_feed feed tu st
       ∧ pb.get_stop_id st ∈ sel.*1
       ∧ (pb.get_stop_id st, details) ∈ sel
       ∧ stop_name r = Stop.stop_name details)
  ∧ (∀ tu st acc,
       pb.get_stop_id st ∉ sel.*1 →
       visit_stop_time routes sel now tu acc st = Ok acc).
Proof.
  split.
  - intros recs r Hget Hr.
    apply (get_incoming_trams_elem_of _ _ _ _ _ r Hget) in Hr
      as (tu & st & details & t & arr & ? & Hd & ? & ? & ? & ->).
    exists tu, st, details. split_and!; [done| |by apply dict_get_Some|done].
    apply dict_get_Some in Hd. by apply (list_elem_of_fmap_2 fst) in Hd.
  - intros tu st acc Hout%dict_get_None.
    by rewrite visit_stop_time_unfold, Hout.
Qed.

End ExtractorFacts.


Lemma demo_get_incoming_trams :
  get_incoming_trams Demo.feed Demo.routes Demo.stops Demo.now = Ok Demo.trams.
Proof. vm_compute. reflexivity. Qed.

Lemma demo_in_feed e tu st :
  e ∈ pb.entity Demo.feed → pb.trip_update e = Some tu →
  st ∈ pb.stop_time_update tu → in_feed Demo.feed tu st.
Proof. intros. by exists e. Qed.

Lemma time_to_arrival_within_horizon_witness :
  (∀ r, r ∈ Demo.trams →
     ∃ tu st t arr,
       in_feed Demo.feed tu st ∧ pb.arrival_time st = Some t
       ∧ fromtimestamp t = Ok arr
       ∧ 0 ≤ arr - Demo.now ≤ horizon
       ∧ time_to_arrival r = before_dot (timedelta_str (arr - Demo.now)))
  ∧ (∀ tu st details t arr,
       in_feed Demo.feed tu st →
       dict_get Demo.stops (pb.get_stop_id st) = Some details →
       pb.arrival_time st = Some t → fromtimestamp t = Ok arr →
       arr - Demo.now = 0 ∨ arr - Demo.now = horizon →
       record_of Demo.routes details tu arr Demo.now ∈ Demo.trams).
Proof.
  apply (time_to_arrival_within_horizon Demo.feed Demo.routes Demo.stops).
  vm_compute. reflexivity.
Defined.

Lemma unknown_route_sentinels_witness :
  ∃ r,
    (∀ acc, visit_stop_time Demo.routes Demo.stops Demo.now Demo.stale_route
              acc (Demo.stop_time "F02461" (Demo.t0 + 200)) = Ok (acc ++ [r]))
    ∧ (∀ recs, get_incoming_trams Demo.feed Demo.routes Demo.stops Demo.now
               = Ok recs → r ∈ recs)
    ∧ (pb.route_id (pb.trip Demo.stale_route) = None
       ∨ pb.route_id (pb.trip Demo.stale_route) = Some "" →
       route_id r = "Unknown Route"
       ∧ tram_number r = default "Unknown" (Demo.routes !! "Unknown Route"))
    ∧ (∀ rid, pb.route_id (pb.trip Demo.stale_route) = Some rid → rid ≠ "" →
       Demo.routes !! rid = None →
       route_id r = rid ∧ tram_number r = "Unknown")
    ∧ (∀ routes',
         is_Ok (get_incoming_trams Demo.feed routes' Demo.stops Demo.now) →
         is_Ok (get_incoming_trams Demo.feed Demo.routes Demo.stops Demo.now)).
Proof.
  apply (unknown_route_sentinels Demo.feed Demo.routes Demo.stops Demo.now
           Demo.stale_route (Demo.stop_time "F02461" (Demo.t0 + 200))
           Demo.zsigmond_ter (Demo.t0 + 200)
           ((Demo.t0 + 200 + 3600) * 1000000)).
  - apply (demo_in_feed {| pb.trip_update := Some Demo.stale_route |});
      [|reflexivity|left]. do 3 right. left.
  - reflexivity.
  - reflexivity.
  - reflexivity.
  - vm_compute. split; discriminate.
Defined.

Lemma event_without_arrival_time_skipped_witness :
  (∀ tu acc, visit_stop_time Demo.routes Demo.stops Demo.now tu acc
               (Demo.no_prediction "F02461") = Ok acc)
  ∧ (∀ es1 es2 trip sts1 sts2,
       get_incoming_trams
         {| pb.entity := es1 ++
              {| pb.trip_update := Some
                   {| pb.trip := trip;
                      pb.stop_time_update :=
                        sts1 ++ Demo.no_prediction "F02461" :: sts2 |} |}
              :: es2 |}
         Demo.routes Demo.stops Demo.now
       = get_incoming_trams
         {| pb.entity := es1 ++
              {| pb.trip_update := Some
                   {| pb.trip := trip;
                      pb.stop_time_update := sts1 ++ sts2 |} |} :: es2 |}
         Demo.routes Demo.stops Demo.now).
Proof.
  apply (event_without_arrival_time_skipped Demo.routes Demo.stops Demo.now
           (Demo.no_prediction "F02461")).
  reflexivity.
Defined.

Lemma records_only_for_selected_stops_witness :
  ∃ tu st details,
    in_feed Demo.feed tu st
    ∧ pb.get_stop_id st ∈ Demo.stops.*1
    ∧ (pb.get_stop_id st, details) ∈ Demo.stops
    ∧ stop_name (Demo.record "Unknown" "9999" "23:16:40" "0:03:20")
      = Stop.stop_name details.
Proof.
  apply (proj1 (records_only_for_selected_stops Demo.feed Demo.routes
                  Demo.stops Demo.now) Demo.trams).
  - vm_compute. reflexivity.
  - do 3 right. left.
Defined.



(** ** Stop resolver *)

Lemma append_String c s t : String c s +:+ t = String c (s +:+ t).
Proof. reflexivity. Qed.

Lemma startswith_spec s p : startswith s p = true ↔ ∃ post, s = p +:+ post.
Proof.
  revert s. induction p as [|c p IH]; intros s.
  - split; [intros _; by exists s | by destruct s].
  - setoid_rewrite append_String.
    destruct s as [|d s]; simpl; [split; [done | by intros [? ?]]|].
    destruct (Ascii.eqb_spec c d) as [->|Hcd].
    + rewrite IH. split; intros [post Hpost]; exists post; congruence.
    + split; [done | intros [post Hpost]; congruence].
Qed.

Lemma str_in_String sub c s :
  str_in sub (String c s) = startswith (String c s) sub || str_in sub s.
Proof. reflexivity. Qed.

Lemma str_in_spec sub s : str_in sub s = true ↔ is_substring sub s.
Proof.
  unfold is_substring. induction s as [|c s IH].
  - change (str_in sub "") with (startswith "" sub || false).
    rewrite orb_false_r, startswith_spec. split.
    + intros [post Hpost]. by exists "", post.
    + intros ([|? ?] & post & Hpost); [by exists post | done].
  - rewrite str_in_String, orb_true_iff, startswith_spec, IH. split.
    + intros [[post Hpost] | (pre & post & Hpost)].
      * by exists "", post.
      * exists (String c pre), post. by rewrite append_String, Hpost.
    + intros ([|c' pre] & post & Hpost).
      * left. by exists post.
      * right. exists pre, post. rewrite append_String in Hpost. congruence.
Qed.

Lemma str_in_empty s : str_in "" s = true.
Proof. by destruct s. Qed.

(** C4. For every stops mapping and every query, the items that
    [find_stops_by_name] returns are exactly the items of the mapping in
    whose lower-cased stop_name the lower-cased query occurs as a substring;
    with ASCII case folding, the query "zsigmond" selects the stop named
    "Zsigmond tér". *)
Theorem find_stops_by_name_matches :
  (∀ (P : Platform) (stops_mapping : list (string * Stop.details)) query item,
     item ∈ find_stops_by_name stops_mapping query
     ↔ item ∈ stops_mapping
       ∧ is_substring (str_lower query) (str_lower (Stop.stop_name item.2)))
  ∧ find_stops_by_name (H := Demo.platform)
      [("F00583", Demo.other_stop); ("F02461", Demo.zsigmond_ter)] "zsigmond"
    = [("F02461", Demo.zsigmond_ter)].
Proof.
  split; [|vm_compute; reflexivity].
  intros P stops_mapping query item. unfold find_stops_by_name.
  rewrite list_elem_of_filter, str_in_spec. tauto.
Qed.

(** C10. For the empty query, [find_stops_by_name] returns the whole stops
    mapping (lower-casing the empty string gives the empty string, which
    occurs in every stop_name). *)
Theorem empty_query_selects_every_stop (P : Platform)
    (stops_mapping : list (string * Stop.details)) :
  str_lower "" = "" →
  find_stops_by_name stops_mapping "" = stops_mapping.
Proof.
  intros Hlower. unfold find_stops_by_name. rewrite Hlower.
  induction stops_mapping as [|item l IH]; [done|].
  rewrite filter_cons_True by apply str_in_empty. by rewrite IH.
Qed.

Lemma empty_query_selects_every_stop_witness :
  find_stops_by_name (H := Demo.platform)
    [("F00583", Demo.other_stop); ("F02461", Demo.zsigmond_ter)] ""
  = [("F00583", Demo.other_stop); ("F02461", Demo.zsigmond_ter)].
Proof.
  apply (empty_query_selects_every_stop Demo.platform). reflexivity.
Defined.

(** ** Rendering of durations *)

Lemma Z_below_forall (P : Z → bool) (n : nat) :
  forallb P (Z.of_nat <$> seq 0 n) = true →
  ∀ z, 0 ≤ z < Z.of_nat n → P z = true.
Proof.
  intros Hall z Hz. rewrite forallb_forall in Hall. apply Hall.
  apply list_elem_of_In, list_elem_of_fmap. exists (Z.to_nat z).
  split; [lia|]. apply list_elem_of_In, in_seq. lia.
Qed.

Lemma pretty_digit h : 0 ≤ h < 10 → pretty h = String (digit h) "".
Proof.
  intros Hh. apply String.eqb_eq. revert h Hh.
  apply (Z_below_forall (λ h, String.eqb (pretty h) (String (digit h) "")) 10).
  vm_compute. reflexivity.
Qed.

Lemma fmt_d_2 m :
  0 ≤ m < 60 →
  fmt_d 2 m = String (digit (m `div` 10)) (String (digit (m `mod` 10)) "").
Proof.
  intros Hm. apply String.eqb_eq. revert m Hm.
  apply (Z_below_forall
           (λ m, String.eqb (fmt_d 2 m)
                   (String (digit (m `div` 10))
                      (String (digit (m `mod` 10)) ""))) 60).
  vm_compute. reflexivity.
Qed.

Lemma digit_not_dot k : 0 ≤ k < 10 → Ascii.eqb (digit k) "." = false.
Proof.
  intros Hk. apply negb_true_iff. revert k Hk.
  apply (Z_below_forall (λ k, negb (Ascii.eqb (digit k) ".")) 10).
  vm_compute. reflexivity.
Qed.

Lemma before_dot_stops s t :
  before_dot s = s → before_dot (s +:+ String "." t) = s.
Proof.
  induction s as [|c s IH]; [done|].
  rewrite append_String. simpl.
  destruct (Ascii.eqb c "."); [done|]. intros [= Hs]. by rewrite IH.
Qed.

Lemma before_dot_hms secs : 0 ≤ secs < 36000 → before_dot (hms secs) = hms secs.
Proof.
  intros Hs. unfold hms. simpl.
  rewrite !digit_not_dot; [done|..];
    Z.to_euclidean_division_equations; lia.
Qed.

(** What [str(td).split(".")[0]] is below ten hours. *)
Lemma before_dot_timedelta_str d :
  0 ≤ d < 36000 * 1000000 →
  before_dot (timedelta_str d) = hms (d `div` 1000000).
Proof.
  intros Hd. unfold timedelta_str.
  set (secs := d `div` 1000000).
  assert (Hsecs : 0 ≤ secs < 36000)
    by (unfold secs; Z.to_euclidean_division_equations; lia).
  rewrite (Z.div_small secs 86400), (Z.mod_small secs 86400) by lia.
  rewrite Z.eqb_refl.
  rewrite (pretty_digit ((secs `div` 60) `div` 60))
    by (Z.to_euclidean_division_equations; lia).
  rewrite !fmt_d_2 by (Z.to_euclidean_division_equations; lia).
  replace ((secs `div` 60) `div` 60) with (secs `div` 3600)
    by (Z.to_euclidean_division_equations; lia).
  change (String (digit (secs `div` 3600)) "" +:+ ":" +:+
          String (digit (((secs `div` 60) `mod` 60) `div` 10))
            (String (digit (((secs `div` 60) `mod` 60) `mod` 10)) "") +:+ ":" +:+
          String (digit ((secs `mod` 60) `div` 10))
            (String (digit ((secs `mod` 60) `mod` 10)) ""))
    with (hms secs).
  destruct (d `mod` 1000000 =? 0).
  - by apply before_dot_hms.
  - apply before_dot_stops. by apply before_dot_hms.
Qed.

(** The order of [<] on two such strings is the order of the seconds. *)
Lemma digit_compare a b :
  0 ≤ a < 10 → 0 ≤ b < 10 → Ascii.compare (digit a) (digit b) = (a ?= b).
Proof.
  intros Ha Hb. unfold Ascii.compare, digit.
  rewrite !N_ascii_embedding by lia.
  rewrite <- N2Z.inj_compare, !N2Z.inj_add, !Z2N.id by lia.
  apply Z.add_compare_mono_l.
Qed.

Lemma compare_String_digit a b s t :
  0 ≤ a < 10 → 0 ≤ b < 10 →
  String.compare (String (digit a) s) (String (digit b) t)
  = match a ?= b with Eq => String.compare s t | c => c end.
Proof.
  intros Ha Hb. simpl. rewrite digit_compare by done. by destruct (a ?= b).
Qed.

Lemma compare_String_colon s t :
  String.compare (String ":" s) (String ":" t) = String.compare s t.
Proof. reflexivity. Qed.

Lemma hms_compare s1 s2 :
  0 ≤ s1 < 36000 → 0 ≤ s2 < 36000 →
  String.compare (hms s1) (hms s2) = (s1 ?= s2).
Proof.
  intros H1 H2. unfold hms.
  repeat (rewrite compare_String_colon
          || rewrite compare_String_digit
               by (Z.to_euclidean_division_equations; lia)).
  change (String.compare "" "") with Eq.
  repeat match goal with
         | |- context [?a ?= ?b] =>
             lazymatch a with
             | s1 => fail
             | _ => destruct (Z.compare_spec a b)
             end
         end;
    symmetry;
    first [apply Z.compare_eq_iff | apply Z.compare_lt_iff
          | apply Z.compare_gt_iff];
    Z.to_euclidean_division_equations; lia.
Qed.

(** ** Sorting *)

Lemma ltb_asym s t : String.ltb s t = true → String.ltb t s = false.
Proof.
  unfold String.ltb. rewrite (String.compare_antisym t s).
  by destruct (String.compare s t).
Qed.

Section Sorting.
Context {A : Type} (key : A → string).

Lemma insort_perm x l : insort key x l ≡ₚ x :: l.
Proof.
  induction l as [|y l IH]; simpl; [done|].
  destruct (String.ltb (key y) (key x)); [|done].
  by rewrite IH, Permutation_swap.
Qed.

Lemma sorted_perm l : sorted key l ≡ₚ l.
Proof.
  induction l as [|x l IH]; simpl; [done|].
  by rewrite insort_perm, IH.
Qed.

Lemma insort_HdRel y x l :
  key_le key y x → HdRel (key_le key) y l → HdRel (key_le key) y (insort key x l).
Proof.
  intros Hyx Hyl. destruct l as [|z l]; simpl; [by constructor|].
  destruct (String.ltb (key z) (key x)); constructor; [|done].
  by inversion Hyl.
Qed.

Lemma insort_Sorted x l :
  Sorted (key_le key) l → Sorted (key_le key) (insort key x l).
Proof.
  induction 1 as [|y l Hl IH Hy]; simpl; [by repeat constructor|].
  destruct (String.ltb (key y) (key x)) eqn:Hlt.
  - constructor; [done|]. apply insort_HdRel; [|done].
    by apply ltb_asym.
  - repeat constructor; done.
Qed.

Lemma sorted_Sorted l : Sorted (key_le key) (sorted key l).
Proof.
  induction l as [|x l IH]; simpl; [constructor|]. by apply insort_Sorted.
Qed.

(** Two neighbours of a list that is sorted are in order. *)
Lemma Sorted_neighbours (R : relation A) l i x y :
  Sorted R l → l !! i = Some x → l !! S i = Some y → R x y.
Proof.
  intros Hl. revert i. induction Hl as [|z l Hl IH Hz]; intros i; [done|].
  destruct i as [|i]; simpl.
  - intros [= ->] Hy. destruct l as [|z' l]; [done|].
    injection Hy as ->. by inversion Hz.
  - apply IH.
Qed.
End Sorting.

(** ** Board *)

Lemma board_table_rows trams :
  board_table trams = row_of <$> sorted time_to_arrival trams.
Proof. reflexivity. Qed.

(** When the string shown for [d2] is not below the one shown for [d1],
    [d1] is not later than [d2], in whole seconds. *)
Lemma shown_order d1 d2 :
  0 ≤ d1 < 36000 * 1000000 → 0 ≤ d2 < 36000 * 1000000 →
  String.ltb (before_dot (timedelta_str d2)) (before_dot (timedelta_str d1))
  = false →
  d1 `div` 1000000 ≤ d2 `div` 1000000.
Proof.
  intros H1 H2. rewrite !before_dot_timedelta_str by done.
  unfold String.ltb.
  rewrite hms_compare by (Z.to_euclidean_division_equations; lia).
  destruct (Z.compare_spec (d2 `div` 1000000) (d1 `div` 1000000));
    [lia | done | lia].
Qed.

Lemma horizon_below_ten_hours d : 0 ≤ d ≤ horizon → 0 ≤ d < 36000 * 1000000.
Proof. unfold horizon, timedelta_minutes, TIME_WINDOW_MINUTES. lia. Qed.

Lemma board_neighbours trams i row1 row2 :
  board_table trams !! i = Some row1 →
  board_table trams !! S i = Some row2 →
  ∃ r1 r2,
    r1 ∈ trams ∧ r2 ∈ trams ∧ row1 = row_of r1 ∧ row2 = row_of r2
    ∧ key_le time_to_arrival r1 r2.
Proof.
  rewrite board_table_rows, !list_lookup_fmap.
  destruct (sorted time_to_arrival trams !! i) as [r1|] eqn:Hr1; [|done].
  destruct (sorted time_to_arrival trams !! S i) as [r2|] eqn:Hr2; [|done].
  intros [= <-] [= <-]. exists r1, r2. split_and!; try done.
  - rewrite <- (sorted_perm time_to_arrival trams).
    by apply list_elem_of_lookup_2 in Hr1.
  - rewrite <- (sorted_perm time_to_arrival trams).
    by apply list_elem_of_lookup_2 in Hr2.
  - apply (Sorted_neighbours _ _ _ _ _ (sorted_Sorted _ _) Hr1 Hr2).
Qed.

(** C3. For any list of records, the rows of the board are the rows of the
    records in some order, and two consecutive rows that show times to
    arrival within the horizon show them in ascending order (the record
    holds whole seconds, so that is what is compared).  On the records that
    one call of [get_incoming_trams] returns, consecutive rows are in
    ascending order of the exact time to arrival.  Records due in 2 min,
    30 s and 4 min are shown in the order 30 s, 2 min, 4 min. *)
Theorem board_sorted_by_time_to_arrival :
  (∀ trams : list ArrivalRecord,
     (∃ shown, shown ≡ₚ trams ∧ board_table trams = row_of <$> shown)
     ∧ ∀ i row1 row2 d1 d2,
         board_table trams !! i = Some row1 →
         board_table trams !! S i = Some row2 →
         0 ≤ d1 ≤ horizon →
         row1 !! 3%nat = Some (before_dot (timedelta_str d1)) →
         0 ≤ d2 ≤ horizon →
         row2 !! 3%nat = Some (before_dot (timedelta_str d2)) →
         d1 `div` 1000000 ≤ d2 `div` 1000000)
  ∧ (∀ (P : Platform) feed routes sel now trams i row1 row2,
       get_incoming_trams feed routes sel now = Ok trams →
       board_table trams !! i = Some row1 →
       board_table trams !! S i = Some row2 →
       ∃ arr1 arr2,
         row1 !! 3%nat = Some (before_dot (timedelta_str (arr1 - now)))
         ∧ row2 !! 3%nat = Some (before_dot (timedelta_str (arr2 - now)))
         ∧ 0 ≤ arr1 - now ∧ arr1 - now ≤ arr2 - now ∧ arr2 - now ≤ horizon)
  ∧ board_table [Demo.due (timedelta_minutes 2); Demo.due (timedelta_seconds 30);
                 Demo.due (timedelta_minutes 4)]
    = [row_of (Demo.due (timedelta_seconds 30));
       row_of (Demo.due (timedelta_minutes 2));
       row_of (Demo.due (timedelta_minutes 4))].
Proof.
  split_and!; [| |vm_compute; reflexivity].
  - intros trams. split.
    + exists (sorted time_to_arrival trams).
      split; [apply sorted_perm | apply board_table_rows].
    + intros i row1 row2 d1 d2 Hrow1 Hrow2 Hd1 Hshow1 Hd2 Hshow2.
      destruct (board_neighbours _ _ _ _ Hrow1 Hrow2)
        as (r1 & r2 & _ & _ & -> & -> & Hle).
      injection Hshow1 as Hshow1. injection Hshow2 as Hshow2.
      unfold key_le in Hle. rewrite Hshow1, Hshow2 in Hle.
      by apply shown_order; [apply horizon_below_ten_hours.. |].
  - intros P feed routes sel now trams i row1 row2 Hget Hrow1 Hrow2.
    destruct (board_neighbours _ _ _ _ Hrow1 Hrow2)
      as (r1 & r2 & Hr1 & Hr2 & -> & -> & Hle).
    apply (get_incoming_trams_elem_of _ _ _ _ _ r1 Hget) in Hr1
      as (tu1 & st1 & details1 & t1 & arr1 & _ & _ & _ & Harr1 & Hw1 & ->).
    apply (get_incoming_trams_elem_of _ _ _ _ _ r2 Hget) in Hr2
      as (tu2 & st2 & details2 & t2 & arr2 & _ & _ & _ & Harr2 & Hw2 & ->).
    exists arr1, arr2. split_and!; [done | done | lia | | lia].
    unfold key_le in Hle. simpl in Hle.
    apply shown_order in Hle; [|by apply horizon_below_ten_hours..].
    unfold fromtimestamp in Harr1, Harr2.
    destruct (timestamp_ok t1); [|done]. destruct (timestamp_ok t2); [|done].
    injection Harr1 as <-. injection Harr2 as <-.
    revert Hle. Z.to_euclidean_division_equations. lia.
Qed.

(** ** Session and poll loop *)

Section SessionFacts.
Context `{Platform}.
Implicit Types (routes : gmap string string).
Implicit Types (sel : list (string * Stop.details)).

Lemma fetch_gtfs_rt_feed_malformed content :
  ParseFromString content = None →
  fetch_gtfs_rt_feed (Ok content) = Raise DecodeError.
Proof. unfold fetch_gtfs_rt_feed. rewrite bind_Ok. by intros ->. Qed.

(** A poll in which nothing raises ends with the sleep and is followed by
    the next one. *)
Lemma poll_loop_cycle_ok routes sel poll rest :
  cycle_ok routes sel poll →
  ∃ shown,
    poll_loop routes sel (poll :: rest)
    = ([Print (nl +:+ "Fetching real-time data..."); HttpGet URL]
       ++ shown ++ [Sleep 30] ++ (poll_loop routes sel rest).1,
       (poll_loop routes sel rest).2).
Proof.
  destruct poll as [now response]. intros (feed & trams & Hfeed & Htrams).
  simpl in Hfeed, Htrams. simpl. rewrite Hfeed, Htrams.
  eexists [_; _; _]. reflexivity.
Qed.

(** What such a poll prints, in full. *)
Lemma poll_loop_cycle_shown routes sel now response feed trams rest :
  fetch_gtfs_rt_feed response = Ok feed →
  get_incoming_trams feed routes sel now = Ok trams →
  poll_loop routes sel ((now, response) :: rest)
  = ([Print (nl +:+ "Fetching real-time data...");
      HttpGet URL;
      Print (esc +:+ "[H" +:+ esc +:+ "[J");
      Print ("Real-Time Tram Timetable for Stops: "
             +:+ join ", " ((λ item, Stop.stop_name item.2) <$> sel)
             +:+ " (Next " +:+ pretty TIME_WINDOW_MINUTES
             +:+ " Minutes):" +:+ nl);
      match trams with
      | [] => Print "No trams arriving within the next 5 minutes."
      | _ => Tabulate (board_table trams) headers
      end;
      Sleep 30]
     ++ (poll_loop routes sel rest).1,
     (poll_loop routes sel rest).2).
Proof. intros Hfeed Hget. simpl. by rewrite Hfeed, Hget. Qed.

(** A poll in which the fetch or the decoding raises is the last: the
    exception leaves the loop. *)
Lemma poll_loop_cycle_raises routes sel now response e rest :
  fetch_gtfs_rt_feed response = Raise e →
  poll_loop routes sel ((now, response) :: rest)
  = ([Print (nl +:+ "Fetching real-time data..."); HttpGet URL], Uncaught e).
Proof. intros Hfeed. simpl. by rewrite Hfeed. Qed.

Lemma poll_loop_app routes sel pre rest :
  Forall (cycle_ok routes sel) pre →
  poll_loop routes sel (pre ++ rest)
  = ((poll_loop routes sel pre).1 ++ (poll_loop routes sel rest).1,
     (poll_loop routes sel rest).2).
Proof.
  induction 1 as [|[now response] pre (feed & trams & Hfeed & Htrams) _ IH].
  - simpl. by destruct (poll_loop routes sel rest).
  - simpl in Hfeed, Htrams. simpl. by rewrite Hfeed, Htrams, IH.
Qed.

Lemma poll_loop_all_ok routes sel pre :
  Forall (cycle_ok routes sel) pre → (poll_loop routes sel pre).2 = Polling.
Proof.
  induction 1 as [|[now response] pre (feed & trams & Hfeed & Htrams) _ IH].
  - done.
  - simpl in Hfeed, Htrams. simpl. by rewrite Hfeed, Htrams.
Qed.

(** The session up to the loop, when the query selects a stop. *)
Lemma main_monitoring w routes stops line rest :
  static_files w = Ok (routes, stops) → stdin w = line :: rest →
  find_stops_by_name stops (str_strip line) ≠ [] →
  ∃ before,
    main w
    = (before
       ++ (poll_loop routes (find_stops_by_name stops (str_strip line))
                     (polls w)).1,
       (poll_loop routes (find_stops_by_name stops (str_strip line))
                  (polls w)).2).
Proof.
  intros Hstatic Hstdin Hsel. unfold main. rewrite Hstatic, Hstdin.
  destruct (find_stops_by_name stops (str_strip line)) as [|item sel] eqn:Hfind;
    [done|].
  eexists (_ :: _ :: _ :: _ :: _). simpl. reflexivity.
Qed.

(** The loop does not read the standard input. *)
Lemma poll_loop_inputs_read routes sel polls :
  inputs_read (poll_loop routes sel polls).1 = 0%nat.
Proof.
  induction polls as [|[now response] polls IH]; [done|]. simpl.
  destruct (fetch_gtfs_rt_feed response) as [feed|]; [|done].
  destruct (get_incoming_trams feed routes sel now) as [trams|]; [|done].
  simpl. by destruct trams.
Qed.

Lemma inputs_read_app t1 t2 :
  inputs_read (t1 ++ t2) = (inputs_read t1 + inputs_read t2)%nat.
Proof. unfold inputs_read. by rewrite List.filter_app, length_app. Qed.

Lemma inputs_read_prints {A} (line : A → string) (l : list A) :
  inputs_read ((λ x, Print (line x)) <$> l) = 0%nat.
Proof. by induction l. Qed.

(** A session reads one line at most. *)
Lemma main_inputs_read w : (inputs_read (main w).1 ≤ 1)%nat.
Proof.
  unfold main.
  destruct (static_files w) as [[routes stops]|]; [|unfold inputs_read; simpl; lia].
  destruct (stdin w) as [|line rest]; [unfold inputs_read; simpl; lia|].
  destruct (find_stops_by_name stops (str_strip line)) as [|item sel];
    [unfold inputs_read; simpl; lia|].
  cbn [fst]. rewrite !inputs_read_app, poll_loop_inputs_read.
  change (inputs_read (Print ?line :: ?prints)) with (inputs_read prints).
  rewrite inputs_read_prints. unfold inputs_read. simpl. lia.
Qed.

(** C2, as the code has it. A poll whose buffer does not decode is the last
    one: after the polls before it, in which nothing raised, the loop prints
    that it fetches, fetches, and DecodeError leaves [main]; nothing is
    rendered, there is no sleep, and the polls after it do not happen.  A
    poll in which nothing raises prints that it fetches, fetches, clears the
    screen, prints the heading with the names of the selected stops and then
    the board of the extracted records (or, with no record, the message that
    no tram arrives), sleeps 30 seconds and is followed by the next poll. *)
Theorem decode_failure_ends_poll_loop routes sel pre now content rest :
  Forall (cycle_ok routes sel) pre →
  ParseFromString content = None →
  poll_loop routes sel (pre ++ (now, Ok content) :: rest)
  = ((poll_loop routes sel pre).1
     ++ [Print (nl +:+ "Fetching real-time data..."); HttpGet URL],
     Uncaught DecodeError)
  ∧ fetches (poll_loop routes sel (pre ++ (now, Ok content) :: rest)).1
    = S (length pre)
  ∧ (∀ now' response feed trams rest',
       fetch_gtfs_rt_feed response = Ok feed →
       get_incoming_trams feed routes sel now' = Ok trams →
       poll_loop routes sel ((now', response) :: rest')
       = ([Print (nl +:+ "Fetching real-time data...");
           HttpGet URL;
           Print (esc +:+ "[H" +:+ esc +:+ "[J");
           Print ("Real-Time Tram Timetable for Stops: "
                  +:+ join ", " ((λ item, Stop.stop_name item.2) <$> sel)
                  +:+ " (Next " +:+ pretty TIME_WINDOW_MINUTES
                  +:+ " Minutes):" +:+ nl);
           match trams with
           | [] => Print "No trams arriving within the next 5 minutes."
           | _ => Tabulate (board_table trams) headers
           end;
           Sleep 30]
          ++ (poll_loop routes sel rest').1,
          (poll_loop routes sel rest').2)).
Proof.
  intros Hpre Hcontent.
  assert (Hloop :
    poll_loop routes sel (pre ++ (now, Ok content) :: rest)
    = ((poll_loop routes sel pre).1
       ++ [Print (nl +:+ "Fetching real-time data..."); HttpGet URL],
       Uncaught DecodeError)).
  { rewrite poll_loop_app by done.
    by rewrite (poll_loop_cycle_raises _ _ _ _ DecodeError)
      by (by apply fetch_gtfs_rt_feed_malformed). }
  split_and!; [done| |intros; by eapply poll_loop_cycle_shown].
  rewrite Hloop. clear Hloop. simpl. unfold fetches.
  rewrite List.filter_app, length_app. simpl.
  induction Hpre as [|[now' response] pre (feed & trams & Hfeed & Htrams) _ IH];
    [done|].
  simpl in Hfeed, Htrams. simpl. rewrite Hfeed, Htrams. simpl.
  destruct trams; simpl; by rewrite IH.
Qed.

(** C8, as the code has it. When no stop name contains the query, the
    resolver returns the empty mapping and raises nothing, and the session
    tells the user and ends: [main] returns, without asking again and
    without polling. *)
Theorem no_match_ends_session w routes stops line rest :
  static_files w = Ok (routes, stops) → stdin w = line :: rest →
  (∀ item, item ∈ stops →
     ¬ is_substring (str_lower (str_strip line))
                    (str_lower (Stop.stop_name item.2))) →
  find_stops_by_name stops (str_strip line) = []
  ∧ main w
    = ([Print ("Loading BKK GTFS static data..." +:+ nl);
        Input "Enter a stop name to search (e.g., Zsigmond tÃ©r): ";
        Print ("No stops found matching '" +:+ str_strip line
               +:+ "'. Please try again.")],
       Returned).
Proof.
  intros Hstatic Hstdin Hnone.
  assert (Hfind : find_stops_by_name stops (str_strip line) = []).
  { unfold find_stops_by_name. apply elem_of_nil_inv. intros item.
    rewrite list_elem_of_filter, str_in_spec. intros [? ?]. by eapply Hnone. }
  split; [done|]. unfold main. by rewrite Hstatic, Hstdin, Hfind.
Qed.

End SessionFacts.

Lemma decode_failure_ends_poll_loop_witness :
  poll_loop Demo.routes Demo.stops (polls Demo.session)
  = ((poll_loop Demo.routes Demo.stops [(Demo.now, Ok Demo.header_only)]).1
     ++ [Print (nl +:+ "Fetching real-time data..."); HttpGet URL],
     Uncaught DecodeError).
Proof.
  apply (decode_failure_ends_poll_loop Demo.routes Demo.stops
           [(Demo.now, Ok Demo.header_only)] (Demo.now + 30000000)
           Demo.truncated [(Demo.now + 60000000, Ok Demo.header_only)]).
  - repeat constructor. exists {| pb.entity := [] |}, []. by split.
  - reflexivity.
Defined.

(** The decode failure of the second poll ends the session; the third poll
    does not happen. *)
Lemma decode_failure_recovery_counterexample :
  fetch_gtfs_rt_feed (Ok Demo.truncated) = Raise DecodeError
  ∧ main Demo.session = (Demo.session_trace, Uncaught DecodeError)
  ∧ fetches (main Demo.session).1 = 2%nat
  ∧ ¬ ((main Demo.session).2 = Polling
       ∧ fetches (main Demo.session).1 = length (polls Demo.session)).
Proof.
  split_and!; [vm_compute; reflexivity..|].
  intros [Hout _]. vm_compute in Hout. discriminate.
Qed.

Lemma no_match_ends_session_witness :
  find_stops_by_name Demo.stops (str_strip "xyz") = []
  ∧ main Demo.session_no_match = (Demo.session_no_match_trace, Returned).
Proof.
  refine (no_match_ends_session Demo.session_no_match Demo.routes Demo.stops
            "xyz" ["zsigmond"] eq_refl eq_refl _).
  intros item ->%list_elem_of_singleton Hsub%str_in_spec.
  vm_compute in Hsub. discriminate.
Defined.

(** No stop matches "xyz": the session ends, and the second line of the
    standard input is never asked for. *)
Lemma no_match_restart_counterexample :
  find_stops_by_name Demo.stops "xyz" = []
  ∧ main Demo.session_no_match = (Demo.session_no_match_trace, Returned)
  ∧ stdin Demo.session_no_match = ["xyz"; "zsigmond"]
  ∧ ¬ ((2 ≤ inputs_read (main Demo.session_no_match).1)%nat
       ∧ (main Demo.session_no_match).2 ≠ Returned).
Proof.
  split_and!; [vm_compute; reflexivity..|].
  intros [_ Hout]. apply Hout. vm_compute. reflexivity.
Qed.

Lemma board_sorted_by_time_to_arrival_witness :
  timedelta_seconds 30 `div` 1000000 ≤ timedelta_minutes 2 `div` 1000000.
Proof.
  apply (proj2 (proj1 board_sorted_by_time_to_arrival
                  [Demo.due (timedelta_minutes 2);
                   Demo.due (timedelta_seconds 30);
                   Demo.due (timedelta_minutes 4)])
           0%nat (row_of (Demo.due (timedelta_seconds 30)))
           (row_of (Demo.due (timedelta_minutes 2))));
    first [reflexivity | vm_compute; split; discriminate].
Defined.

(** * Further properties of the code *)

(** ** Arrival extractor: the list it returns *)

Section AppendingLists.
Context {A B : Type} (body : list B → A → result (list B)).
Hypothesis body_appends :
  ∀ acc x, body acc x = (body [] x ≫= λ rs, Ok (acc ++ rs)).

Lemma for_each_bind (g : A → list B) l out :
  (∀ x rs, x ∈ l → body [] x = Ok rs → rs = g x) →
  for_each body [] l = Ok out → out = l ≫= g.
Proof.
  revert out. induction l as [|x l IH]; intros out Hg; simpl.
  - by intros [= <-].
  - destruct (body [] x) as [rs|e] eqn:Hx; [|done].
    rewrite ?bind_Ok, (for_each_appends body body_appends).
    destruct (for_each body [] l) as [rs'|e] eqn:Hl; [|done].
    rewrite ?bind_Ok. simpl. intros [= <-].
    rewrite (Hg x rs) by (done || left). f_equal.
    apply IH; [|done]. intros y rs'' Hy. apply Hg. by right.
Qed.

Lemma for_each_Raise l e :
  for_each body [] l = Raise e → ∃ x, x ∈ l ∧ body [] x = Raise e.
Proof.
  induction l as [|x l IH]; simpl; [done|].
  destruct (body [] x) as [rs|e'] eqn:Hx.
  - rewrite ?bind_Ok, (for_each_appends body body_appends).
    destruct (for_each body [] l) as [rs'|e'] eqn:Hl; [done|].
    simpl. intros [= ->]. destruct IH as (y & Hy & Hb); [done|].
    exists y. split; [by right | done].
  - simpl. intros [= ->]. exists x. split; [left | done].
Qed.

Lemma for_each_first_error (err : A → option exn) l :
  (∀ x, x ∈ l →
     match err x with
     | Some e => body [] x = Raise e
     | None => is_Ok (body [] x)
     end) →
  match first_error err l with
  | Some e => for_each body [] l = Raise e
  | None => is_Ok (for_each body [] l)
  end.
Proof.
  induction l as [|x l IH]; intros Herr; simpl; [by eexists|].
  pose proof (Herr x (list_elem_of_here _ _)) as Hx.
  destruct (err x) as [e|]; [by rewrite Hx|].
  destruct Hx as [rs ->].
  rewrite ?bind_Ok, (for_each_appends body body_appends).
  assert (Hl : ∀ y, y ∈ l →
            match err y with
            | Some e => body [] y = Raise e
            | None => is_Ok (body [] y)
            end) by (intros y Hy; apply Herr; by right).
  specialize (IH Hl). destruct (first_error err l) as [e|].
  - by rewrite IH.
  - destruct IH as [rs' ->]. by eexists.
Qed.
End AppendingLists.

Section ExtractorOutput.
Context `{Platform}.
Implicit Types (feed : pb.FeedMessage) (routes : gmap string string).
Implicit Types (sel : list (string * Stop.details)) (now : Z).

Lemma visit_stop_time_records routes sel now tu st rs :
  visit_stop_time routes sel now tu [] st = Ok rs →
  rs = event_records routes sel now tu st.
Proof.
  rewrite visit_stop_time_unfold. unfold event_records, fromtimestamp.
  destruct (dict_get sel _) as [details|]; [|by intros [= <-]].
  destruct (pb.arrival_time st) as [t|]; [|by intros [= <-]].
  destruct (timestamp_ok t); [|done]. rewrite bind_Ok. cbv zeta.
  case_bool_decide; by intros [= <-].
Qed.

Lemma visit_entity_records routes sel now e rs :
  visit_entity routes sel now [] e = Ok rs →
  rs = entity_records routes sel now e.
Proof.
  unfold visit_entity, entity_records.
  destruct (pb.trip_update e) as [tu|]; [|by intros [= <-]].
  apply (for_each_bind _ (visit_stop_time_appends routes sel now tu)).
  intros st rs' _. apply visit_stop_time_records.
Qed.

Lemma get_incoming_trams_records feed routes sel now recs :
  get_incoming_trams feed routes sel now = Ok recs →
  recs = feed_records feed routes sel now.
Proof.
  apply (for_each_bind _ (visit_entity_appends routes sel now)).
  intros e rs _. apply visit_entity_records.
Qed.

Lemma visit_stop_time_Raise routes sel now tu st e :
  visit_stop_time routes sel now tu [] st = Raise e → refused sel st.
Proof.
  rewrite visit_stop_time_unfold. unfold fromtimestamp, refused.
  destruct (dict_get sel _) as [details|] eqn:Hd; [|done].
  destruct (pb.arrival_time st) as [t|]; [|done].
  destruct (timestamp_ok t) eqn:Ht.
  - rewrite bind_Ok. by case_bool_decide.
  - intros _. exists t. split_and!; [by eexists|done..].
Qed.

Lemma get_incoming_trams_Raise feed routes sel now e :
  get_incoming_trams feed routes sel now = Raise e →
  ∃ tu st, in_feed feed tu st ∧ refused sel st.
Proof.
  intros Hget.
  apply (for_each_Raise _ (visit_entity_appends routes sel now)) in Hget
    as (en & Hen & Hraise).
  unfold visit_entity in Hraise.
  destruct (pb.trip_update en) as [tu|] eqn:Htu; [|done].
  apply (for_each_Raise _ (visit_stop_time_appends routes sel now tu))
    in Hraise as (st & Hst & Hraise).
  apply visit_stop_time_Raise in Hraise.
  exists tu, st. split; [by exists en | done].
Qed.

Lemma visit_stop_time_refusal routes sel now tu st :
  match event_refusal sel st with
  | Some e => visit_stop_time routes sel now tu [] st = Raise e
  | None => is_Ok (visit_stop_time routes sel now tu [] st)
  end.
Proof.
  rewrite visit_stop_time_unfold. unfold event_refusal, fromtimestamp.
  destruct (dict_get sel _) as [details|]; [|by eexists].
  destruct (pb.arrival_time st) as [t|]; [|by eexists].
  destruct (timestamp_ok t); [|done].
  rewrite bind_Ok. case_bool_decide; by eexists.
Qed.

Lemma visit_entity_refusal routes sel now e :
  match entity_refusal sel e with
  | Some ex => visit_entity routes sel now [] e = Raise ex
  | None => is_Ok (visit_entity routes sel now [] e)
  end.
Proof.
  unfold entity_refusal, visit_entity.
  destruct (pb.trip_update e) as [tu|]; [|by eexists].
  apply (for_each_first_error _ (visit_stop_time_appends routes sel now tu)).
  intros st _. apply visit_stop_time_refusal.
Qed.

Lemma get_incoming_trams_refusal feed routes sel now :
  match feed_refusal feed sel with
  | Some e => get_incoming_trams feed routes sel now = Raise e
  | None => is_Ok (get_incoming_trams feed routes sel now)
  end.
Proof.
  apply (for_each_first_error _ (visit_entity_appends routes sel now)).
  intros e _. apply visit_entity_refusal.
Qed.

(** X1. When [datetime.fromtimestamp] accepts the timestamp of every event
    at a selected stop, [get_incoming_trams] returns the records of the
    events in the window in the order of the feed (entity by entity, stop
    time by stop time), one for each such event: nothing is merged,
    reordered or dropped. *)
Theorem extraction_in_feed_order feed routes sel now :
  (∀ tu st t,
     in_feed feed tu st → is_Some (dict_get sel (pb.get_stop_id st)) →
     pb.arrival_time st = Some t → timestamp_ok t = true) →
  get_incoming_trams feed routes sel now
  = Ok (feed_records feed routes sel now).
Proof.
  intros Hok.
  destruct (get_incoming_trams_is_Ok feed routes sel now Hok) as [recs Hget].
  rewrite Hget. f_equal. by apply get_incoming_trams_records.
Qed.

(** X2. [get_incoming_trams] raises exactly when the feed has an event at
    a selected stop whose arrival timestamp [datetime.fromtimestamp]
    refuses, whether or not the arrival would fall into the window; what it
    raises is what [datetime.fromtimestamp] raises on the first such event
    in the order of the feed (ValueError, OverflowError or OSError, as the
    timestamp decides), and no record is returned. *)
Theorem extraction_raises_iff_timestamp_refused feed routes sel now :
  (∀ e, get_incoming_trams feed routes sel now = Raise e
        ↔ feed_refusal feed sel = Some e)
  ∧ ((∃ e, get_incoming_trams feed routes sel now = Raise e)
     ↔ ∃ tu st, in_feed feed tu st ∧ refused sel st).
Proof.
  split.
  - intros e. pose proof (get_incoming_trams_refusal feed routes sel now) as Hr.
    destruct (feed_refusal feed sel) as [e'|].
    + rewrite Hr. split; congruence.
    + destruct Hr as [recs ->]. split; done.
  - split.
    + intros [e Hget]. by apply get_incoming_trams_Raise in Hget.
    + intros (tu & st & Hin & t & Hsel & Ht & Hrefused).
      destruct (get_incoming_trams feed routes sel now) as [recs|e] eqn:Hget;
        [|by exists e].
      rewrite (get_incoming_trams_Ok_inv _ _ _ _ _ _ _ _ Hget Hin Hsel Ht)
        in Hrefused. done.
Qed.

(** X3. The extraction of a feed whose entities are those of one feed
    followed by those of another is the extraction of the first followed by
    the extraction of the second; an exception of the first comes first. *)
Theorem extraction_of_concatenated_feeds es1 es2 routes sel now :
  get_incoming_trams {| pb.entity := es1 ++ es2 |} routes sel now
  = (get_incoming_trams {| pb.entity := es1 |} routes sel now ≫= λ recs1,
     get_incoming_trams {| pb.entity := es2 |} routes sel now ≫= λ recs2,
     Ok (recs1 ++ recs2)).
Proof.
  unfold get_incoming_trams. simpl. rewrite for_each_app.
  destruct (for_each _ [] es1) as [recs1|e]; [|done].
  rewrite ?bind_Ok.
  apply (for_each_appends _ (visit_entity_appends routes sel now)).
Qed.

End ExtractorOutput.

(** ** Arrival extractor: selections, labels and formats *)

Lemma sublist_bind {A B} (f g : A → list B) (l : list A) :
  (∀ x, x ∈ l → f x `sublist_of` g x) → (l ≫= f) `sublist_of` (l ≫= g).
Proof.
  induction l as [|x l IH]; intros Hfg; simpl; [done|].
  apply sublist_app; [apply Hfg; left | apply IH].
  intros y Hy. apply Hfg. by right.
Qed.

Lemma strftime_HMS_format dt :
  strftime_HMS dt
  = let tod := (dt `div` 1000000) `mod` 86400 in
    let hh := tod `div` 3600 in
    let mm := (tod `div` 60) `mod` 60 in
    let ss := tod `mod` 60 in
    String (digit (hh `div` 10)) (String (digit (hh `mod` 10)) (String ":"
      (String (digit (mm `div` 10)) (String (digit (mm `mod` 10)) (String ":"
        (String (digit (ss `div` 10)) (String (digit (ss `mod` 10)) ""))))))).
Proof.
  unfold strftime_HMS. cbv zeta.
  rewrite !fmt_d_2 by (Z.to_euclidean_division_equations; lia).
  reflexivity.
Qed.

Lemma hms_within_horizon secs :
  0 ≤ secs ≤ 300 →
  hms secs
  = String "0" (String ":" (String "0" (String (digit (secs `div` 60))
      (String ":" (String (digit ((secs `mod` 60) `div` 10))
        (String (digit ((secs `mod` 60) `mod` 10)) "")))))).
Proof.
  intros Hsecs. unfold hms. cbv zeta.
  replace (secs `div` 3600) with 0 by (Z.to_euclidean_division_equations; lia).
  replace (((secs `div` 60) `mod` 60) `div` 10) with 0
    by (Z.to_euclidean_division_equations; lia).
  replace (((secs `div` 60) `mod` 60) `mod` 10) with (secs `div` 60)
    by (Z.to_euclidean_division_equations; lia).
  reflexivity.
Qed.

Section ExtractorMore.
Context `{Platform}.
Implicit Types (feed : pb.FeedMessage) (routes : gmap string string).
Implicit Types (sel : list (string * Stop.details)) (now : Z).

Lemma event_records_sub_dict routes sel sel' now tu st :
  sub_dict sel' sel →
  event_records routes sel' now tu st
  `sublist_of` event_records routes sel now tu st.
Proof.
  intros Hsub. unfold event_records.
  destruct (dict_get sel' _) as [details|] eqn:Hd; [|apply sublist_nil_l].
  by rewrite (Hsub _ _ Hd).
Qed.

(** X4. Selecting fewer stops never adds a record and never makes the
    extraction raise: with selected stops that hold some of the entries of
    [sel], the extraction returns a sublist, in the same order, of what it
    returns with [sel]. *)
Theorem narrower_selection_gives_sublist feed routes sel sel' now recs :
  sub_dict sel' sel →
  get_incoming_trams feed routes sel now = Ok recs →
  ∃ recs', get_incoming_trams feed routes sel' now = Ok recs'
           ∧ recs' `sublist_of` recs.
Proof.
  intros Hsub Hget.
  destruct (get_incoming_trams_is_Ok feed routes sel' now) as [recs' Hget'].
  { intros tu st t Hin [details Hd] Ht.
    apply (get_incoming_trams_Ok_inv _ _ _ _ _ _ _ _ Hget Hin); [|done].
    exists details. by apply Hsub. }
  exists recs'. split; [done|].
  rewrite (get_incoming_trams_records _ _ _ _ _ Hget),
    (get_incoming_trams_records _ _ _ _ _ Hget').
  apply sublist_bind. intros e _. unfold entity_records.
  destruct (pb.trip_update e) as [tu|]; [|done].
  apply sublist_bind. intros st _. by apply event_records_sub_dict.
Qed.

(** X5. In every record that [get_incoming_trams] returns, the time to
    arrival is written 0:0M:SS, the whole seconds of the arrival time minus
    [now] with the fraction cut off, and the arrival time is written
    HH:MM:SS, the local time of day of the arrival. *)
Theorem record_fields_format feed routes sel now recs r :
  get_incoming_trams feed routes sel now = Ok recs → r ∈ recs →
  ∃ t arr,
    fromtimestamp t = Ok arr
    ∧ (let secs := (arr - now) `div` 1000000 in
       0 ≤ secs ≤ 300
       ∧ time_to_arrival r
         = String "0" (String ":" (String "0" (String (digit (secs `div` 60))
             (String ":" (String (digit ((secs `mod` 60) `div` 10))
               (String (digit ((secs `mod` 60) `mod` 10)) "")))))))
    ∧ (let tod := (arr `div` 1000000) `mod` 86400 in
       let hh := tod `div` 3600 in
       let mm := (tod `div` 60) `mod` 60 in
       let ss := tod `mod` 60 in
       arrival_time r
       = String (digit (hh `div` 10)) (String (digit (hh `mod` 10))
           (String ":" (String (digit (mm `div` 10))
             (String (digit (mm `mod` 10)) (String ":"
               (String (digit (ss `div` 10))
                 (String (digit (ss `mod` 10)) "")))))))).
Proof.
  intros Hget Hr.
  apply (get_incoming_trams_elem_of _ _ _ _ _ r Hget) in Hr
    as (tu & st & details & t & arr & _ & _ & _ & Harr & Hw & ->).
  exists t, arr. split_and!; [done| |].
  - cbv zeta. unfold record_of. cbn [time_to_arrival].
    assert (Hsecs : 0 ≤ (arr - now) `div` 1000000 ≤ 300).
    { revert Hw. unfold horizon, timedelta_minutes, TIME_WINDOW_MINUTES.
      intros Hw. Z.to_euclidean_division_equations. lia. }
    split; [done|].
    rewrite before_dot_timedelta_str by (by apply horizon_below_ten_hours).
    by apply hms_within_horizon.
  - unfold record_of. cbn [arrival_time]. apply strftime_HMS_format.
Qed.

(** X6. For an event that is retained whose trip carries a route id that
    the routes mapping knows, the result has a record with the
    route_short_name of the mapping as tram number, the route id of the
    feed, and the stop name that the selected stops hold for the stop_id. *)
Theorem known_route_label feed routes sel now recs tu st details t arr rid
    name :
  in_feed feed tu st →
  dict_get sel (pb.get_stop_id st) = Some details →
  pb.arrival_time st = Some t → fromtimestamp t = Ok arr →
  0 ≤ arr - now ≤ horizon →
  pb.route_id (pb.trip tu) = Some rid → rid ≠ "" →
  routes !! rid = Some name →
  get_incoming_trams feed routes sel now = Ok recs →
  ∃ r, r ∈ recs ∧ tram_number r = name ∧ route_id r = rid
       ∧ stop_name r = Stop.stop_name details.
Proof.
  intros Hin Hd Ht Harr Hw Hrid Hne Hname Hget.
  exists (record_of routes details tu arr now). split.
  - apply (get_incoming_trams_elem_of _ _ _ _ _ _ Hget).
    by exists tu, st, details, t, arr.
  - unfold record_of, pb.get_route_id. rewrite Hrid. simpl.
    apply String.eqb_neq in Hne. by rewrite Hne, Hname.
Qed.

(** X7. Resolver and extractor together: when the selected stops are what
    [find_stops_by_name] returns for a query, every record of the
    extraction names a stop whose lower-cased name contains the lower-cased
    query. *)
Theorem records_name_stops_matching_query stops_mapping query feed routes
    now recs r :
  get_incoming_trams feed routes (find_stops_by_name stops_mapping query) now
  = Ok recs →
  r ∈ recs →
  is_substring (str_lower query) (str_lower (stop_name r)).
Proof.
  intros Hget Hr.
  apply (get_incoming_trams_elem_of _ _ _ _ _ r Hget) in Hr
    as (tu & st & details & t & arr & _ & Hd & _ & _ & _ & ->).
  apply dict_get_Some in Hd. unfold find_stops_by_name in Hd.
  apply list_elem_of_filter in Hd as [Hmatch _].
  by apply str_in_spec in Hmatch.
Qed.

End ExtractorMore.

(** ** Stop resolver: the mapping it returns *)

Lemma append_empty_r s : s +:+ "" = s.
Proof. induction s as [|c s IH]; [done|]. by rewrite append_String, IH. Qed.

Section ResolverMore.
Context `{Platform}.
Implicit Types (stops_mapping : list (string * Stop.details)).

(** X8. On a stops mapping with one entry per stop_id, what
    [find_stops_by_name] returns has one entry per stop_id too, and looking
    a stop_id up in it gives the details of the mapping when the stop
    matches the query and nothing otherwise. *)
Theorem find_stops_by_name_lookup stops_mapping query stop_id :
  NoDup stops_mapping.*1 →
  NoDup (find_stops_by_name stops_mapping query).*1
  ∧ dict_get (find_stops_by_name stops_mapping query) stop_id
    = match dict_get stops_mapping stop_id with
      | Some details =>
          if str_in (str_lower query) (str_lower (Stop.stop_name details))
          then Some details else None
      | None => None
      end.
Proof.
  intros Hnodup. split.
  - unfold find_stops_by_name.
    eapply sublist_NoDup; [done|]. apply fmap_sublist, sublist_filter.
  - unfold find_stops_by_name.
    induction stops_mapping as [|[k details] l IH]; [done|].
    rewrite fmap_cons in Hnodup. apply NoDup_cons in Hnodup as [Hk Hnodup].
    specialize (IH Hnodup). simpl in Hk. rewrite filter_cons. simpl.
    destruct (str_in _ (str_lower (Stop.stop_name details))) eqn:Hmatch.
    + destruct (decide (true = true)); [|done]. simpl.
      case_decide; [by rewrite Hmatch | done].
    + destruct (decide (false = true)); [done|]. rewrite IH.
      case_decide as Hkk; [|done]. subst k.
      apply dict_get_None in Hk. by rewrite Hk, Hmatch.
Qed.

(** X9. Narrowing a selection by a second query gives the same mapping in
    whichever order the two queries are applied, and applying the same
    query again changes nothing. *)
Theorem find_stops_by_name_narrowing stops_mapping query1 query2 :
  find_stops_by_name (find_stops_by_name stops_mapping query1) query2
  = find_stops_by_name (find_stops_by_name stops_mapping query2) query1
  ∧ find_stops_by_name (find_stops_by_name stops_mapping query1) query1
    = find_stops_by_name stops_mapping query1.
Proof.
  unfold find_stops_by_name. rewrite !list_filter_filter. split.
  - apply list_filter_iff. tauto.
  - apply list_filter_iff. tauto.
Qed.

(** X10. A stop of the mapping is found by its own name: the query that
    is the stop_name of an item selects that item, whatever lower-casing
    does. *)
Theorem find_stops_by_name_own_name stops_mapping item :
  item ∈ stops_mapping →
  item ∈ find_stops_by_name stops_mapping (Stop.stop_name item.2).
Proof.
  intros Hitem. unfold find_stops_by_name.
  apply list_elem_of_filter. split; [|done].
  apply str_in_spec. exists "", "".
  change ("" +:+ ?s) with s. by rewrite append_empty_r.
Qed.

End ResolverMore.

(** ** Board: equal keys *)

Lemma ltb_irrefl s : String.ltb s s = false.
Proof.
  unfold String.ltb. pose proof (String.compare_antisym s s) as Hs.
  by destruct (String.compare s s).
Qed.

Lemma insort_filter {A} (key : A → string) (x : A) (l : list A) (k : string) :
  filter (λ y, key y = k) (insort key x l) = filter (λ y, key y = k) (x :: l).
Proof.
  induction l as [|y l IH]; [done|]. simpl.
  destruct (String.ltb (key y) (key x)) eqn:Hlt; [|done].
  rewrite (filter_cons _ y), IH, !(filter_cons _ x), (filter_cons _ y).
  repeat case_decide; try done.
  all: match goal with
       | Hx : ?a = ?c, Hy : ?b = ?c |- _ =>
           by rewrite Hx, <- Hy, ltb_irrefl in Hlt
       end.
Qed.

(** X11. The board keeps records with the same time to arrival in the
    order in which the extraction returned them: among the rows of one
    time to arrival nothing is reordered. *)
Theorem board_keeps_order_of_equal_times (trams : list ArrivalRecord) :
  ∃ shown,
    board_table trams = row_of <$> shown
    ∧ ∀ left,
        filter (λ r, time_to_arrival r = left) shown
        = filter (λ r, time_to_arrival r = left) trams.
Proof.
  exists (sorted time_to_arrival trams). split; [apply board_table_rows|].
  intros left. induction trams as [|r trams IH]; [done|]. simpl.
  by rewrite insort_filter, !(filter_cons _ r), IH.
Qed.

(** ** Session and poll loop: outcomes, pacing and output *)

Lemma fetches_app t1 t2 : fetches (t1 ++ t2) = (fetches t1 + fetches t2)%nat.
Proof. unfold fetches. by rewrite List.filter_app, length_app. Qed.

Lemma sleeps_app t1 t2 : sleeps (t1 ++ t2) = (sleeps t1 + sleeps t2)%nat.
Proof. unfold sleeps. by rewrite List.filter_app, length_app. Qed.

Lemma tables_app t1 t2 : tables (t1 ++ t2) = tables t1 ++ tables t2.
Proof. unfold tables. apply bind_app. Qed.

Lemma quiet_counts t :
  quiet t →
  fetches t = 0%nat ∧ sleeps t = 0%nat ∧ tables t = []
  ∧ inputs_read t = length (List.filter
                              (λ ev, match ev with Input _ => true | _ => false end)
                              t).
Proof.
  induction 1 as [|ev t Hev _ (IHf & IHs & IHt & _)]; [done|].
  destruct ev; try done; split_and!; try done.
Qed.

Lemma board_table_length trams : length (board_table trams) = length trams.
Proof.
  rewrite board_table_rows, length_fmap.
  apply Permutation_length, sorted_perm.
Qed.

Section SessionMore.
Context `{Platform}.
Implicit Types (routes : gmap string string).
Implicit Types (sel : list (string * Stop.details)).

Lemma cycle_ok_or_raises routes sel poll :
  cycle_ok routes sel poll ∨ ∃ e, cycle_raises routes sel poll e.
Proof.
  unfold cycle_ok, cycle_raises.
  destruct (fetch_gtfs_rt_feed poll.2) as [feed|e] eqn:Hfeed; [|by eauto].
  destruct (get_incoming_trams feed routes sel poll.1) as [trams|e] eqn:Hget.
  - left. by exists feed, trams.
  - right. exists e. right. by exists feed.
Qed.

Lemma cycle_ok_not_raises routes sel poll e :
  cycle_ok routes sel poll → ¬ cycle_raises routes sel poll e.
Proof.
  intros (feed & trams & Hfeed & Hget) [Hraise | (feed' & Hfeed' & Hraise)].
  - congruence.
  - rewrite Hfeed in Hfeed'. injection Hfeed' as <-. congruence.
Qed.

Lemma poll_loop_raises routes sel poll e rest :
  cycle_raises routes sel poll e →
  poll_loop routes sel (poll :: rest)
  = ([Print (nl +:+ "Fetching real-time data..."); HttpGet URL], Uncaught e).
Proof.
  destruct poll as [now response].
  intros [Hfeed | (feed & Hfeed & Hget)]; simpl in *.
  - by rewrite Hfeed.
  - by rewrite Hfeed, Hget.
Qed.

Lemma poll_loop_first_raise routes sel pre poll e rest :
  Forall (cycle_ok routes sel) pre → cycle_raises routes sel poll e →
  poll_loop routes sel (pre ++ poll :: rest)
  = ((poll_loop routes sel pre).1
     ++ [Print (nl +:+ "Fetching real-time data..."); HttpGet URL],
     Uncaught e).
Proof.
  intros Hpre Hraise. rewrite poll_loop_app by done.
  by rewrite (poll_loop_raises _ _ _ e).
Qed.

Lemma poll_loop_Uncaught_inv routes sel polls e :
  (poll_loop routes sel polls).2 = Uncaught e →
  ∃ pre poll rest,
    polls = pre ++ poll :: rest ∧ Forall (cycle_ok routes sel) pre
    ∧ cycle_raises routes sel poll e.
Proof.
  induction polls as [|poll polls IH]; [done|].
  destruct (cycle_ok_or_raises routes sel poll) as [Hok | [e' Hraise]].
  - destruct (poll_loop_cycle_ok routes sel poll polls Hok) as [shown ->].
    simpl. intros (pre & poll' & rest & -> & Hpre & Hraise)%IH.
    exists (poll :: pre), poll', rest. split_and!; [done| |done].
    by constructor.
  - rewrite (poll_loop_raises _ _ _ e') by done. simpl. intros [= ->].
    by exists [], poll, polls.
Qed.

Lemma poll_loop_not_Returned routes sel polls :
  (poll_loop routes sel polls).2 ≠ Returned.
Proof.
  induction polls as [|poll polls IH]; [done|].
  destruct (cycle_ok_or_raises routes sel poll) as [Hok | [e' Hraise]].
  - by destruct (poll_loop_cycle_ok routes sel poll polls Hok) as [shown ->].
  - by rewrite (poll_loop_raises _ _ _ e').
Qed.

Lemma poll_loop_counts routes sel polls :
  match (poll_loop routes sel polls).2 with
  | Polling =>
      fetches (poll_loop routes sel polls).1 = length polls
      ∧ sleeps (poll_loop routes sel polls).1 = length polls
  | Uncaught _ =>
      fetches (poll_loop routes sel polls).1
      = S (sleeps (poll_loop routes sel polls).1)
      ∧ (fetches (poll_loop routes sel polls).1 ≤ length polls)%nat
  | Returned => False
  end.
Proof.
  induction polls as [|[now response] polls IH]; [done|]. simpl.
  destruct (fetch_gtfs_rt_feed response) as [feed|];
    [|cbn [fst snd]; split; [reflexivity | unfold fetches; simpl; lia]].
  destruct (get_incoming_trams feed routes sel now) as [trams|];
    [|cbn [fst snd]; split; [reflexivity | unfold fetches; simpl; lia]].
  cbn [fst snd].
  destruct (poll_loop routes sel polls) as [later out]. cbn [fst snd] in *.
  destruct trams; unfold fetches, sleeps in *; simpl; destruct out;
    [done | lia | lia | done | lia | lia].
Qed.

Lemma poll_loop_tables routes sel polls table :
  table ∈ tables (poll_loop routes sel polls).1 →
  table ≠ [] ∧ Forall (λ row, length row = 4%nat) table.
Proof.
  induction polls as [|[now response] polls IH]; simpl.
  - by intros ?%elem_of_nil.
  - destruct (fetch_gtfs_rt_feed response) as [feed|];
      [|by intros ?%elem_of_nil].
    destruct (get_incoming_trams feed routes sel now) as [trams|];
      [|by intros ?%elem_of_nil].
    cbn [fst]. destruct trams as [|r trams]; [done|].
    intros [->|Hlater]%elem_of_cons; [|by apply IH].
    split.
    + intros Hnil. apply (f_equal length) in Hnil.
      by rewrite board_table_length in Hnil.
    + rewrite board_table_rows. apply Forall_fmap, Forall_forall. by intros.
Qed.

Lemma main_cases w :
  (quiet (main w).1 ∧ (main w).2 ≠ Polling
   ∧ ((main w).2 = Returned ↔
      ∃ routes stops line rest,
        static_files w = Ok (routes, stops) ∧ stdin w = line :: rest
        ∧ find_stops_by_name stops (str_strip line) = []))
  ∨ ∃ before routes sel,
      quiet before
      ∧ main w = (before ++ (poll_loop routes sel (polls w)).1,
                  (poll_loop routes sel (polls w)).2).
Proof.
  unfold main.
  destruct (static_files w) as [[routes stops]|e] eqn:Hstatic.
  - destruct (stdin w) as [|line rest] eqn:Hstdin.
    + left. split_and!; [by repeat constructor | done |].
      split; [done | by intros (? & ? & ? & ? & _ & ? & _)].
    + destruct (find_stops_by_name stops (str_strip line)) as [|item sel]
        eqn:Hfind.
      * left. split_and!; [by repeat constructor | done |].
        split; [|done]. intros _. by exists routes, stops, line, rest.
      * right. eexists (_ :: _ :: _ :: _ :: _), routes, (item :: sel).
        split; [|reflexivity].
        repeat constructor. apply Forall_fmap, Forall_forall. by intros.
  - left. split_and!; [by repeat constructor | done |].
    split; [done | by intros (? & ? & ? & ? & ? & _)].
Qed.

(** X12. The poll loop ends exactly at the first poll in which something
    raises, whether the fetch (an error of the transport), the decoding or
    the extraction: it has then printed that it fetches and has fetched,
    the exception leaves [main], and nothing of that poll is shown.  The
    loop never returns. *)
Theorem poll_loop_ends_at_first_raise routes sel :
  (∀ pre poll rest e,
     Forall (cycle_ok routes sel) pre → cycle_raises routes sel poll e →
     poll_loop routes sel (pre ++ poll :: rest)
     = ((poll_loop routes sel pre).1
        ++ [Print (nl +:+ "Fetching real-time data..."); HttpGet URL],
        Uncaught e))
  ∧ (∀ polls e,
       (poll_loop routes sel polls).2 = Uncaught e →
       ∃ pre poll rest,
         polls = pre ++ poll :: rest ∧ Forall (cycle_ok routes sel) pre
         ∧ cycle_raises routes sel poll e)
  ∧ (∀ polls,
       (poll_loop routes sel polls).2 = Polling
       ↔ Forall (cycle_ok routes sel) polls)
  ∧ (∀ polls, (poll_loop routes sel polls).2 ≠ Returned).
Proof.
  split_and!.
  - intros. by apply poll_loop_first_raise.
  - apply poll_loop_Uncaught_inv.
  - intros polls. split; [|apply poll_loop_all_ok].
    induction polls as [|poll polls IH]; [done|].
    destruct (cycle_ok_or_raises routes sel poll) as [Hok | [e' Hraise]].
    + destruct (poll_loop_cycle_ok routes sel poll polls Hok) as [shown ->].
      simpl. intros ?%IH. by constructor.
    + by rewrite (poll_loop_raises _ _ _ e').
  - apply poll_loop_not_Returned.
Qed.

(** X13. One event at a selected stop with an arrival timestamp that
    [datetime.fromtimestamp] refuses ends the monitoring: in the poll that
    brings such a feed, what [datetime.fromtimestamp] raises on the first
    such event of the feed leaves [main] after the fetch, and the later
    polls do not happen. *)
Theorem refused_timestamp_ends_poll_loop routes sel pre now content feed tu
    st rest :
  Forall (cycle_ok routes sel) pre →
  ParseFromString content = Some feed →
  in_feed feed tu st → refused sel st →
  ∃ e,
    feed_refusal feed sel = Some e
    ∧ poll_loop routes sel (pre ++ (now, Ok content) :: rest)
      = ((poll_loop routes sel pre).1
         ++ [Print (nl +:+ "Fetching real-time data..."); HttpGet URL],
         Uncaught e).
Proof.
  intros Hpre Hparse Hin (t & Hsel & Ht & Hrefused).
  pose proof (get_incoming_trams_refusal feed routes sel now) as Hr.
  destruct (feed_refusal feed sel) as [e|].
  - exists e. split; [done|].
    apply poll_loop_first_raise; [done|]. right. exists feed. split; [|done].
    unfold fetch_gtfs_rt_feed. simpl. by rewrite Hparse.
  - destruct Hr as [recs Hget].
    rewrite (get_incoming_trams_Ok_inv _ _ _ _ _ _ _ _ Hget Hin Hsel Ht)
      in Hrefused. done.
Qed.

(** X14. In every session a fetch is followed by a sleep of 30 seconds
    before the next fetch: the fetches are at most one more than the
    sleeps, and as long as nothing has raised, every poll has fetched once
    and slept once. *)
Theorem fetches_are_paced w :
  (fetches (main w).1 ≤ S (sleeps (main w).1))%nat
  ∧ (fetches (main w).1 ≤ length (polls w))%nat
  ∧ ((main w).2 = Polling →
     fetches (main w).1 = length (polls w)
     ∧ sleeps (main w).1 = length (polls w)).
Proof.
  destruct (main_cases w) as [(Hquiet & Hout & _)
                             | (before & routes & sel & Hquiet & ->)].
  - apply quiet_counts in Hquiet as (-> & -> & _). split_and!; [lia..|done].
  - cbn [fst snd]. rewrite fetches_app, sleeps_app.
    apply quiet_counts in Hquiet as (-> & -> & _).
    pose proof (poll_loop_counts routes sel (polls w)) as Hcounts.
    destruct (poll_loop routes sel (polls w)).2; [done| |];
      simpl; split_and!; try done; lia.
Qed.

(** X15. A session asks for the stop name once when the static tables
    load, also when the standard input is at its end, and never when they
    do not load; no later step reads the standard input. *)
Theorem session_reads_one_line w :
  inputs_read (main w).1
  = match static_files w with Ok _ => 1%nat | Raise _ => 0%nat end.
Proof.
  unfold main. destruct (static_files w) as [[routes stops]|e]; [|done].
  destruct (stdin w) as [|line rest]; [done|].
  destruct (find_stops_by_name stops (str_strip line)) as [|item sel];
    [done|].
  cbn [fst]. rewrite !inputs_read_app, poll_loop_inputs_read.
  change (inputs_read (Print ?l :: ?prints)) with (inputs_read prints).
  by rewrite inputs_read_prints.
Qed.

Lemma no_tram_messages_app t1 t2 :
  no_tram_messages (t1 ++ t2)
  = (no_tram_messages t1 + no_tram_messages t2)%nat.
Proof. unfold no_tram_messages. by rewrite List.filter_app, length_app. Qed.

Lemma no_tram_messages_stop_lines sel :
  no_tram_messages
    ((λ item : string * Stop.details,
        Print ("- Stop ID: " +:+ item.1 +:+ ", Stop Name: "
               +:+ Stop.stop_name item.2)) <$> sel) = 0%nat.
Proof. by induction sel. Qed.

(** Every poll that completes shows one thing: a table or the message. *)
Lemma poll_loop_shows routes sel polls :
  (length (tables (poll_loop routes sel polls).1)
   + no_tram_messages (poll_loop routes sel polls).1
   = sleeps (poll_loop routes sel polls).1)%nat.
Proof.
  induction polls as [|[now response] polls IH]; [done|].
  destruct (fetch_gtfs_rt_feed response) as [feed|e] eqn:Hfeed;
    [|by rewrite (poll_loop_cycle_raises _ _ _ _ e)].
  destruct (get_incoming_trams feed routes sel now) as [trams|e] eqn:Hget.
  - rewrite (poll_loop_cycle_shown _ _ _ _ _ _ _ Hfeed Hget). cbn [fst].
    rewrite tables_app, length_app, no_tram_messages_app, sleeps_app.
    destruct trams; simpl; lia.
  - rewrite (poll_loop_raises _ _ (now, response) e); [done|].
    right. by exists feed.
Qed.

(** X16. A table that a session prints is never empty, and each of its
    rows has the four cells of the headers; with no tram in the window the
    session prints the message instead of a table: every poll that
    completes shows either a table or the message, never both and never
    neither, and the poll whose extraction returns no record prints the
    message. *)
Theorem printed_tables_have_rows w :
  (∀ table, table ∈ tables (main w).1 →
     table ≠ [] ∧ Forall (λ row, length row = length headers) table)
  ∧ (length (tables (main w).1) + no_tram_messages (main w).1
     = sleeps (main w).1)%nat
  ∧ (∀ routes sel now response feed rest,
       fetch_gtfs_rt_feed response = Ok feed →
       get_incoming_trams feed routes sel now = Ok [] →
       poll_loop routes sel ((now, response) :: rest)
       = ([Print (nl +:+ "Fetching real-time data...");
           HttpGet URL;
           Print (esc +:+ "[H" +:+ esc +:+ "[J");
           Print ("Real-Time Tram Timetable for Stops: "
                  +:+ join ", " ((λ item, Stop.stop_name item.2) <$> sel)
                  +:+ " (Next " +:+ pretty TIME_WINDOW_MINUTES
                  +:+ " Minutes):" +:+ nl);
           Print "No trams arriving within the next 5 minutes.";
           Sleep 30]
          ++ (poll_loop routes sel rest).1,
          (poll_loop routes sel rest).2))
  ∧ (∀ routes sel now response feed trams rest,
       fetch_gtfs_rt_feed response = Ok feed →
       get_incoming_trams feed routes sel now = Ok trams → trams ≠ [] →
       tables (poll_loop routes sel ((now, response) :: rest)).1
       = board_table trams :: tables (poll_loop routes sel rest).1).
Proof.
  split_and!.
  - intros table.
    destruct (main_cases w) as [(Hquiet & _)
                               | (before & routes & sel & Hquiet & ->)].
    + apply quiet_counts in Hquiet as (_ & _ & -> & _).
      by intros ?%elem_of_nil.
    + cbn [fst]. rewrite tables_app.
      apply quiet_counts in Hquiet as (_ & _ & -> & _).
      apply poll_loop_tables.
  - unfold main. destruct (static_files w) as [[routes stops]|e]; [|done].
    destruct (stdin w) as [|line rest]; [done|].
    destruct (find_stops_by_name stops (str_strip line)) as [|item sel];
      [done|].
    cbn [fst].
    rewrite !tables_app, !length_app, !no_tram_messages_app, !sleeps_app.
    pose proof (poll_loop_shows routes (item :: sel) (polls w)) as Hpoll.
    change (no_tram_messages (Print ?line :: ?prints))
      with (no_tram_messages prints) at 2.
    rewrite no_tram_messages_stop_lines.
    assert (Hquiet : ∀ l1 (stop_line : string * Stop.details → string),
              quiet (Print l1 :: ((λ x, Print (stop_line x)) <$> item :: sel))).
    { intros. constructor; [done|]. apply Forall_fmap, Forall_forall.
      by intros. }
    match goal with
    | |- context [tables (Print ?l1 :: (?f <$> _))] =>
        destruct (quiet_counts _ (Hquiet l1 (λ x, match f x with
                                                  | Print l => l
                                                  | _ => ""
                                                  end)))
          as (_ & Hs & Ht & _)
    end.
    rewrite Hs, Ht. clear Hs Ht Hquiet. revert Hpoll.
    generalize (length (tables (poll_loop routes (item :: sel) (polls w)).1)),
      (no_tram_messages (poll_loop routes (item :: sel) (polls w)).1),
      (sleeps (poll_loop routes (item :: sel) (polls w)).1).
    intros shown_tables shown_messages slept Hpoll. simpl. lia.
  - intros routes sel now response feed rest Hfeed Hget.
    by rewrite (poll_loop_cycle_shown _ _ _ _ _ _ _ Hfeed Hget).
  - intros routes sel now response feed trams rest Hfeed Hget Htrams.
    rewrite (poll_loop_cycle_shown _ _ _ _ _ _ _ Hfeed Hget). cbn [fst].
    by destruct trams.
Qed.

(** X17. [main] returns only when the query selects no stop: it returns
    exactly when the static tables load, a line is read and no stop name
    contains it; once the monitoring has started it runs until an exception
    leaves it. *)
Theorem main_returns_iff_no_match w :
  (main w).2 = Returned
  ↔ ∃ routes stops line rest,
      static_files w = Ok (routes, stops) ∧ stdin w = line :: rest
      ∧ find_stops_by_name stops (str_strip line) = [].
Proof.
  destruct (main_cases w) as [(_ & _ & Hiff)
                             | (before & routes & sel & _ & Hmain)];
    [done|].
  split.
  - rewrite Hmain. cbn [snd]. intros Hret.
    by apply poll_loop_not_Returned in Hret.
  - intros (routes' & stops & line & rest & Hstatic & Hstdin & Hfind).
    unfold main. by rewrite Hstatic, Hstdin, Hfind.
Qed.

End SessionMore.

(** ** The further properties on the examples *)

Ltac cases_elem_of H :=
  repeat match type of H with
         | _ ∈ _ :: _ => apply elem_of_cons in H as [H|H]
         | _ ∈ [] => by apply elem_of_nil in H
         end.

Lemma extraction_in_feed_order_witness :
  get_incoming_trams Demo.feed Demo.routes Demo.two_stops Demo.now
  = Ok (feed_records Demo.feed Demo.routes Demo.two_stops Demo.now).
Proof.
  apply extraction_in_feed_order.
  intros tu st t (e & He & Htu & Hst) _ Ht.
  unfold Demo.feed in He. simpl in He. cases_elem_of He; subst e;
    simpl in Htu; try done; injection Htu as <-;
    simpl in Hst; cases_elem_of Hst; subst st;
    simpl in Ht; try done; injection Ht as <-; reflexivity.
Defined.

Lemma narrower_selection_gives_sublist_witness :
  ∃ recs',
    get_incoming_trams Demo.feed Demo.routes Demo.stops Demo.now = Ok recs'
    ∧ recs' `sublist_of`
        feed_records Demo.feed Demo.routes Demo.two_stops Demo.now.
Proof.
  apply (narrower_selection_gives_sublist Demo.feed Demo.routes
           Demo.two_stops Demo.stops Demo.now).
  - intros k v. simpl. repeat case_decide; congruence.
  - vm_compute. reflexivity.
Defined.

Lemma record_fields_format_witness :
  ∃ t arr,
    fromtimestamp t = Ok arr
    ∧ (let secs := (arr - Demo.now) `div` 1000000 in
       0 ≤ secs ≤ 300
       ∧ time_to_arrival (Demo.record "Unknown" "9999" "23:16:40" "0:03:20")
         = String "0" (String ":" (String "0" (String (digit (secs `div` 60))
             (String ":" (String (digit ((secs `mod` 60) `div` 10))
               (String (digit ((secs `mod` 60) `mod` 10)) "")))))))
    ∧ (let tod := (arr `div` 1000000) `mod` 86400 in
       let hh := tod `div` 3600 in
       let mm := (tod `div` 60) `mod` 60 in
       let ss := tod `mod` 60 in
       arrival_time (Demo.record "Unknown" "9999" "23:16:40" "0:03:20")
       = String (digit (hh `div` 10)) (String (digit (hh `mod` 10))
           (String ":" (String (digit (mm `div` 10))
             (String (digit (mm `mod` 10)) (String ":"
               (String (digit (ss `div` 10))
                 (String (digit (ss `mod` 10)) "")))))))).
Proof.
  apply (record_fields_format Demo.feed Demo.routes Demo.stops Demo.now
           Demo.trams).
  - vm_compute. reflexivity.
  - do 3 right. left.
Defined.

Lemma known_route_label_witness :
  ∃ r, r ∈ Demo.trams ∧ tram_number r = "17" ∧ route_id r = "3170"
       ∧ stop_name r = Stop.stop_name Demo.zsigmond_ter.
Proof.
  apply (known_route_label Demo.feed Demo.routes Demo.stops Demo.now
           Demo.trams Demo.tram17 (Demo.stop_time "F02461" (Demo.t0 + 300))
           Demo.zsigmond_ter (Demo.t0 + 300)
           ((Demo.t0 + 300 + 3600) * 1000000) "3170" "17").
  - apply (demo_in_feed {| pb.trip_update := Some Demo.tram17 |});
      [left | reflexivity | right; left].
  - reflexivity.
  - reflexivity.
  - reflexivity.
  - vm_compute. split; discriminate.
  - reflexivity.
  - discriminate.
  - reflexivity.
  - vm_compute. reflexivity.
Defined.

Lemma records_name_stops_matching_query_witness :
  is_substring (str_lower "zsigmond")
    (str_lower (stop_name (Demo.record "17" "3170" "23:13:20" "0:00:00"))).
Proof.
  apply (records_name_stops_matching_query Demo.two_stops "zsigmond"
           Demo.feed Demo.routes Demo.now Demo.trams).
  - vm_compute. reflexivity.
  - left.
Defined.

Lemma find_stops_by_name_lookup_witness :
  NoDup (find_stops_by_name Demo.two_stops "kolosy").*1
  ∧ dict_get (find_stops_by_name Demo.two_stops "kolosy") "F02461"
    = match dict_get Demo.two_stops "F02461" with
      | Some details =>
          if str_in (str_lower "kolosy") (str_lower (Stop.stop_name details))
          then Some details else None
      | None => None
      end.
Proof.
  apply (find_stops_by_name_lookup Demo.two_stops "kolosy" "F02461").
  apply (bool_decide_unpack _). vm_compute. exact I.
Defined.

Lemma find_stops_by_name_own_name_witness :
  ("F02461", Demo.zsigmond_ter)
  ∈ find_stops_by_name Demo.two_stops "Zsigmond tér".
Proof.
  apply (find_stops_by_name_own_name Demo.two_stops
           ("F02461", Demo.zsigmond_ter)).
  right. left.
Defined.

Lemma refused_timestamp_ends_poll_loop_witness :
  ∃ e,
    feed_refusal (H := Demo.platform_more) Demo.feed_refused Demo.stops = Some e
    ∧ poll_loop (H := Demo.platform_more) Demo.routes Demo.stops
        [(Demo.now, Ok Demo.header_only);
         (Demo.now + 30000000, Ok Demo.one_refused);
         (Demo.now + 60000000, Ok Demo.one_arrival)]
      = ((poll_loop (H := Demo.platform_more) Demo.routes Demo.stops
            [(Demo.now, Ok Demo.header_only)]).1
         ++ [Print (nl +:+ "Fetching real-time data..."); HttpGet URL],
         Uncaught e).
Proof.
  apply (refused_timestamp_ends_poll_loop (H := Demo.platform_more)
           Demo.routes Demo.stops [(Demo.now, Ok Demo.header_only)]
           (Demo.now + 30000000) Demo.one_refused Demo.feed_refused
           Demo.tram17_never (Demo.stop_time "F02461" Demo.year_10000)
           [(Demo.now + 60000000, Ok Demo.one_arrival)]).
  - repeat constructor. exists {| pb.entity := [] |}, []. by split.
  - reflexivity.
  - exists {| pb.trip_update := Some Demo.tram17_never |}.
    split_and!; [left | reflexivity | left].
  - exists Demo.year_10000. split_and!; [by eexists | reflexivity..].
Defined.

Lemma printed_tables_have_rows_witness :
  [["17"; "Zsigmond tér"; "23:15:20"; "0:02:00"]] ≠ []
  ∧ Forall (λ row, length row = length headers)
      [["17"; "Zsigmond tér"; "23:15:20"; "0:02:00"]].
Proof.
  apply (proj1 (printed_tables_have_rows (H := Demo.platform_more)
                  Demo.session_with_tram)).
  vm_compute. left.
Defined.

Lemma extraction_raises_iff_timestamp_refused_witness :
  get_incoming_trams Demo.feed_refused Demo.routes Demo.stops Demo.now
  = Raise ValueError
  ∧ get_incoming_trams Demo.feed_two_refused Demo.routes Demo.stops Demo.now
    = Raise OSError.
Proof.
  split.
  - apply (proj1 (extraction_raises_iff_timestamp_refused Demo.feed_refused
                    Demo.routes Demo.stops Demo.now)).
    vm_compute. reflexivity.
  - apply (proj1 (extraction_raises_iff_timestamp_refused
                    Demo.feed_two_refused Demo.routes Demo.stops Demo.now)).
    vm_compute. reflexivity.
Defined.
